(** * ROI-Insight-Pro: the O2O client dashboard (app.py)

    A shallow embedding of the synthetic data generator and of the metric
    derivations of [app.py], and the properties of them that the
    specification states.

    Numbers.  The table holds Python/numpy binary64 values.  They are
    modelled as exact rationals [Q], compared with [==]: rounding and
    overflow are not part of the model, and column sums are exact.  The
    properties are therefore chosen to survive rounding: bounds are stated
    closed or with a margin, a quotient is compared with the expression
    that computes it, and no equality between two differently associated
    sums is claimed for the program, except where a statement says that it
    is one of exact arithmetic.  Where rounding decides a property, the
    module [Binary64] repeats the derivation of a record on IEEE binary64
    and evaluates it.  What IS part of the model is what a division does
    when its denominator is zero, because the code is written around it:
    - a division of Python floats raises [ZeroDivisionError];
    - a division of numpy scalars or pandas columns does not raise, it
      yields one of IEEE's infinities or NaN.
    So Python code lives in an exception monad and numpy results have the
    type [float64], the rationals extended with the special values.

    Library calls.  [np.random.uniform] reads a stream of unit samples,
    each in the closed interval from 0 to 1: the sample itself is below 1,
    but [low + (high - low) * u] can round up to [high].  [st.cache_data]
    is a memo table held by the process.  [sort_values] is used with its
    default [kind='quicksort'], which pandas documents as not stable, so
    the pipeline is stated over any sorting routine that returns a sorted
    permutation; [groupby] sorts its keys. *)

From Stdlib Require Import QArith Qabs Lqa Lia ZArith Arith Bool.
From Stdlib Require Import List String Permutation Sorted RelationClasses.
From Stdlib Require PrimFloat.
Import ListNotations.

Open Scope Q_scope.

(* ================================================================== *)
(** ** Python and numpy arithmetic *)

Definition Qltb (x y : Q) : bool := negb (Qle_bool y x).

(** Exceptions a run of the script can raise in the modelled code. *)
Inductive exn : Set := ZeroDivisionError | IndexError | KeyError.

Inductive result (A : Type) : Type :=
| Ok (a : A)
| Raise (e : exn).
Arguments Ok {A} a.
Arguments Raise {A} e.

(** [x / y] on Python floats. *)
Definition py_truediv (x y : Q) : result Q :=
  if Qeq_bool y 0 then Raise ZeroDivisionError else Ok (x / y).

(** A numpy float64 result: a number, an infinity with its sign, or NaN. *)
Inductive float64 : Set :=
| Finite (q : Q)
| Inf (negative : bool)
| NaN.

(** [x / y] on numpy float64 scalars and on pandas columns (elementwise):
    a zero denominator gives [nan] for [0/0] and a signed [inf] otherwise. *)
Definition np_truediv (x y : Q) : float64 :=
  if Qeq_bool y 0 then
    if Qeq_bool x 0 then NaN else Inf (Qltb x 0)
  else Finite (x / y).

(** [r * c] for a numpy result [r] and a finite constant [c]. *)
Definition np_mul (r : float64) (c : Q) : float64 :=
  match r with
  | Finite q => Finite (q * c)
  | Inf s => if Qeq_bool c 0 then NaN else Inf (if Qltb c 0 then negb s else s)
  | NaN => NaN
  end.

(** Python's [max(0, x)]: the first argument unless the second is larger. *)
Definition py_max0 (x : Q) : Q := if Qltb 0 x then x else 0.

(* ================================================================== *)
(** ** The generator's monad: random stream, position, exceptions *)

(** A computation reads the stream [src] of unit samples (what
    [random_sample()] returns, each in [[0,1)]), advances a position in it
    and either returns or raises. *)
Definition Gen (A : Type) : Type := (nat -> Q) -> nat -> result (A * nat).

Definition ret {A} (a : A) : Gen A := fun _ k => Ok (a, k).

Definition bind {A B} (m : Gen A) (f : A -> Gen B) : Gen B :=
  fun src k =>
    match m src k with
    | Ok (a, k') => f a src k'
    | Raise e => Raise e
    end.

Definition lift {A} (r : result A) : Gen A :=
  fun _ k => match r with Ok a => Ok (a, k) | Raise e => Raise e end.

Notation "x <- m ;; f" := (bind m (fun x => f))
  (at level 61, m at next level, right associativity).

(** [np.random.uniform(low, high)] is [low + (high - low) * random_sample()]. *)
Definition uniform (low high : Q) : Gen Q :=
  fun src k => Ok (low + (high - low) * src k, S k).

(** A [for] loop whose body updates an accumulator. *)
Fixpoint for_each {A S : Type} (xs : list A) (body : A -> S -> Gen S) (s : S)
  : Gen S :=
  match xs with
  | [] => ret s
  | x :: xs' => s' <- body x s ;; for_each xs' body s'
  end.

(** Python's [enumerate]. *)
Definition enumerate {A} (l : list A) : list (nat * A) :=
  combine (seq 0 (List.length l)) l.

(* ================================================================== *)
(** ** Data generation (app.py, generate_data) *)

Record Row : Type := mkRow {
  Client_Name : string;
  Month : string;
  Month_Index : nat;
  GMV : Q;
  Baseline_GMV : Q;
  Ad_Spend : Q;
  Agency_Fee : Q;
  COGS : Q;
  Platform_Comm : Q;
  Total_Investment : Q;
  Net_Profit : Q;
  ROI : Q
}.

Definition DataFrame : Type := list Row.

Definition clients : list string :=
  [ "Tasty Wok Express"; "Burger Kingpin"; "Sushi Zen"; "Pizza Heaven";
    "Taco Fiesta"; "Curry House"; "Noodle Bar 99"; "Salad Greens";
    "Wings & Things"; "Breakfast Club"; "Mama's Pasta"; "BBQ Smokehouse";
    "Vegan Vibes"; "Donut Delights"; "Smoothie Station"; "Grill Master";
    "Seafood Shack"; "Kebab Corner"; "Dim Sum Daily"; "Falafel Factory"
  ]%string.

Definition months : list string :=
  [ "Jan"; "Feb"; "Mar"; "Apr"; "May"; "Jun";
    "Jul"; "Aug"; "Sep"; "Oct"; "Nov"; "Dec" ]%string.

(** [roi = (net_profit / total_investment) * 100 if total_investment > 0 else 0] *)
Definition roi_expr (net_profit total_investment : Q) : result Q :=
  if Qltb 0 total_investment then
    match py_truediv net_profit total_investment with
    | Ok q => Ok (q * 100)
    | Raise e => Raise e
    end
  else Ok 0.

(** The per-record derivation: the assignments from [total_investment] to
    [roi] and the dictionary appended to [data]. *)
Definition derive_record (client month : string) (i : nat)
    (gmv baseline_gmv ad_spend agency_fee cogs_rate comm_rate : Q)
  : result Row :=
  let total_investment := ad_spend + agency_fee in
  let cogs := gmv * cogs_rate in
  let comm := gmv * comm_rate in
  let net_profit := gmv - cogs - comm - total_investment in
  match roi_expr net_profit total_investment with
  | Ok roi =>
      Ok (mkRow client month i gmv baseline_gmv ad_spend agency_fee
                cogs comm total_investment net_profit roi)
  | Raise e => Raise e
  end.

(** The body of the inner loop, for one month of one client. *)
Definition month_body (client : string)
    (base_gmv growth_trend cogs_rate comm_rate agency_fee : Q)
    (im : nat * string) (data : DataFrame) : Gen DataFrame :=
  let '(i, month) := im in
  let trend_factor := 1 + ((inject_Z (Z.of_nat i) / 11) * (growth_trend - 1)) in
  noise <- uniform 0.9 1.1 ;;
  let gmv := base_gmv * trend_factor * noise in
  u_base <- uniform 0.6 0.8 ;;
  let baseline_gmv := gmv * u_base in
  u_ad <- uniform 0.08 0.15 ;;
  let ad_spend := gmv * u_ad in
  row <- lift (derive_record client month i gmv baseline_gmv ad_spend
                             agency_fee cogs_rate comm_rate) ;;
  ret (data ++ [row]).

(** The body of the outer loop, for one client. *)
Definition client_body (month_names : list string)
    (client : string) (data : DataFrame) : Gen DataFrame :=
  base_gmv <- uniform 15000 80000 ;;
  growth_trend <- uniform 0.95 1.2 ;;
  cogs_rate <- uniform 0.35 0.45 ;;
  let comm_rate := 0.20 in
  let agency_fee := 2500 in
  for_each (enumerate month_names)
           (month_body client base_gmv growth_trend cogs_rate comm_rate
                       agency_fee)
           data.

(** The generator over a list of client names. *)
Definition generate_for (names : list string) : Gen DataFrame :=
  for_each names (client_body months) [].

(** [generate_data()] without its decorator. *)
Definition generate_data : Gen DataFrame := generate_for clients.

(** What the derivation returns when it does not raise: the value of the
    conditional expression and the record built from it. *)
Definition roi_value (net_profit total_investment : Q) : Q :=
  if Qltb 0 total_investment then (net_profit / total_investment) * 100 else 0.

Definition derived_row (client month : string) (i : nat)
    (gmv baseline_gmv ad_spend agency_fee cogs_rate comm_rate : Q) : Row :=
  let total_investment := ad_spend + agency_fee in
  let net_profit := gmv - gmv * cogs_rate - gmv * comm_rate - total_investment in
  mkRow client month i gmv baseline_gmv ad_spend agency_fee
        (gmv * cogs_rate) (gmv * comm_rate) total_investment net_profit
        (roi_value net_profit total_investment).

(** The table in closed form: the row of month [i] of a client whose three
    draws start at position [k] of the stream, the rows of a client, the
    rows of all clients.  [generate_for] is shown to return exactly this. *)
Definition month_row (src : nat -> Q) (client : string)
    (base_gmv growth_trend cogs_rate : Q) (k i : nat) (month : string) : Row :=
  let trend_factor := 1 + ((inject_Z (Z.of_nat i) / 11) * (growth_trend - 1)) in
  let gmv := base_gmv * trend_factor * (0.9 + (1.1 - 0.9) * src k) in
  derived_row client month i gmv
              (gmv * (0.6 + (0.8 - 0.6) * src (S k)))
              (gmv * (0.08 + (0.15 - 0.08) * src (S (S k))))
              2500 cogs_rate 0.20.

Fixpoint month_rows (src : nat -> Q) (client : string)
    (base_gmv growth_trend cogs_rate : Q) (k : nat) (ims : list (nat * string))
  : DataFrame :=
  match ims with
  | [] => []
  | (i, month) :: ims' =>
      month_row src client base_gmv growth_trend cogs_rate k i month
      :: month_rows src client base_gmv growth_trend cogs_rate (3 + k) ims'
  end.

Definition client_rows (src : nat -> Q) (month_names : list string)
    (k : nat) (client : string) : DataFrame :=
  month_rows src client
             (15000 + (80000 - 15000) * src k)
             (0.95 + (1.2 - 0.95) * src (S k))
             (0.35 + (0.45 - 0.35) * src (S (S k)))
             (3 + k) (enumerate month_names).

Fixpoint table_rows (src : nat -> Q) (month_names : list string)
    (k : nat) (names : list string) : DataFrame :=
  match names with
  | [] => []
  | client :: names' =>
      client_rows src month_names k client
      ++ table_rows src month_names (3 + 3 * List.length month_names + k) names'
  end.

(** A stream of unit samples.  [random_sample()] draws from [[0,1)], but the
    binary64 value of [low + (high - low) * u] can round up to [high]
    itself; the exact rational [uniform] reaches [high] only at [u = 1], so
    the streams are taken in the closed interval and no statement relies on
    a draw staying strictly below its upper end. *)
Definition unit_samples (src : nat -> Q) : Prop := forall k, 0 <= src k <= 1.

(* ------------------------------------------------------------------ *)
(** *** The decorator [@st.cache_data] *)

(** The state of one server process, as far as the generator sees it: the
    position in the random stream and the entry the decorator keeps for
    [generate_data], which takes no argument. *)
Record Process : Type := mkProcess {
  rng_pos : nat;
  cache : option DataFrame
}.

(** A call of a decorated function: a hit returns the stored value and
    touches nothing; a miss runs the function, stores what it returned and
    leaves the stream where the function left it.  An exception is not
    stored. *)
Definition cache_data (f : Gen DataFrame) (src : nat -> Q) (p : Process)
  : result (DataFrame * Process) :=
  match cache p with
  | Some df => Ok (df, p)
  | None =>
      match f src (rng_pos p) with
      | Ok (df, k') => Ok (df, mkProcess k' (Some df))
      | Raise e => Raise e
      end
  end.

Definition generate_data_cached : (nat -> Q) -> Process -> result (DataFrame * Process) :=
  cache_data generate_data.

(* ================================================================== *)
(** ** pandas operations used by the dashboard *)

Definition bindR {A B} (r : result A) (f : A -> result B) : result B :=
  match r with Ok a => f a | Raise e => Raise e end.

Notation "x <~ r ;; f" := (bindR r (fun x => f))
  (at level 61, r at next level, right associativity).

Fixpoint mapR {A B} (f : A -> result B) (l : list A) : result (list B) :=
  match l with
  | [] => Ok []
  | x :: l' => y <~ f x ;; ys <~ mapR f l' ;; Ok (y :: ys)
  end.

(** [Series.sum()]: a running sum from 0. *)
Definition Qsum (l : list Q) : Q := fold_left Qplus l 0.

Definition col_sum (col : Row -> Q) (df : DataFrame) : Q := Qsum (map col df).

(** [Series.mean()] of a group. *)
Definition col_mean (col : Row -> Q) (df : DataFrame) : Q :=
  col_sum col df / inject_Z (Z.of_nat (List.length df)).

(** [df[df["Client_Name"] == client]] *)
Definition rows_of (client : string) (df : DataFrame) : DataFrame :=
  filter (fun r => String.eqb (Client_Name r) client) df.

(** [Series.unique()]: the distinct values in order of first appearance. *)
Fixpoint unique (l : list string) : list string :=
  match l with
  | [] => []
  | x :: l' => x :: filter (fun y => negb (String.eqb x y)) (unique l')
  end.

(** [groupby] sorts the group keys; the keys are distinct strings, compared
    as Python compares [str], so every sorting routine returns the same
    list: insertion sort stands for it. *)
Fixpoint insert_by {A} (leb : A -> A -> bool) (x : A) (l : list A) : list A :=
  match l with
  | [] => [x]
  | y :: l' => if leb x y then x :: l else y :: insert_by leb x l'
  end.

Definition insertion_sort {A} (leb : A -> A -> bool) (l : list A) : list A :=
  fold_right (insert_by leb) [] l.

Definition sort_keys (l : list string) : list string :=
  insertion_sort String.leb l.

Definition group_keys (df : DataFrame) : list string :=
  sort_keys (unique (map Client_Name df)).

(** [.iloc[i]]: position [i], counted from the end when negative. *)
Definition iloc {A} (l : list A) (i : Z) : result A :=
  let n := Z.of_nat (List.length l) in
  let j := if (i <? 0)%Z then (n + i)%Z else i in
  if ((j <? 0) || (n <=? j))%Z then Raise IndexError
  else match nth_error l (Z.to_nat j) with
       | Some x => Ok x
       | None => Raise IndexError
       end.

(** [.head(n)] *)
Definition head {A} (n : nat) (l : list A) : list A := firstn n l.

(** [sort_values]: the routine behind it is a parameter.  It is given the
    test "may [x] stand before [y]" that the column and the direction
    define. *)
Class SortValues : Type :=
  sort_values : forall A : Type, (A -> A -> bool) -> list A -> list A.

Definition total_preorder {A} (leb : A -> A -> bool) : Prop :=
  (forall x y, leb x y = true \/ leb y x = true) /\
  (forall x y z, leb x y = true -> leb y z = true -> leb x z = true).

(** What pandas promises of [sort_values] whatever the [kind]: the rows
    are the same and they come out in order. *)
Definition sort_contract (S : SortValues) : Prop :=
  forall (A : Type) (leb : A -> A -> bool) (l : list A),
    total_preorder leb ->
    Permutation l (sort_values A leb l) /\
    StronglySorted (fun x y => leb x y = true) (sort_values A leb l).

(** Two routines that meet the contract.  Insertion sort keeps equal rows
    in their order; insertion sort of the reversed list does not. *)
Definition stable_sort : SortValues := fun A leb l => insertion_sort leb l.

Definition unstable_sort : SortValues := fun A leb l => insertion_sort leb (rev l).

(** Ascending order of an integer column. *)
Definition by_Month_Index (r1 r2 : Row) : bool :=
  Nat.leb (Month_Index r1) (Month_Index r2).

(** Descending order of a float column, NaN last ([na_position='last']). *)
Definition f64_desc (x y : float64) : bool :=
  match x, y with
  | _, NaN => true
  | NaN, _ => false
  | Inf false, _ => true
  | _, Inf true => true
  | Finite a, Finite b => Qle_bool b a
  | _, _ => false
  end.

(* ================================================================== *)
(** ** Tab 1: master overview *)

(** *** KPI row *)
Definition total_gmv (df : DataFrame) : Q := col_sum GMV df.
Definition total_profit (df : DataFrame) : Q := col_sum Net_Profit df.
Definition total_invest (df : DataFrame) : Q := col_sum Total_Investment df.

(** [weighted_roi = (total_profit / total_invest) * 100], on numpy scalars. *)
Definition weighted_roi (df : DataFrame) : float64 :=
  np_mul (np_truediv (total_profit df) (total_invest df)) 100.

(** *** Client health matrix *)
Module ClientAgg.
Record t : Type := mk {
  Client_Name : string;
  Total_Investment : Q;
  Net_Profit : Q;
  ROI : Q;
  GMV : Q;
  Overall_ROI : float64
}.
End ClientAgg.

(** One row of [client_agg]: the aggregates of a group and the column
    [Overall_ROI] computed from them. *)
Definition aggregate (df : DataFrame) (client : string) : ClientAgg.t :=
  let g := rows_of client df in
  let inv := col_sum Total_Investment g in
  let net := col_sum Net_Profit g in
  ClientAgg.mk client inv net (col_mean ROI g) (col_sum GMV g)
               (np_mul (np_truediv net inv) 100).

Definition client_agg (df : DataFrame) : list ClientAgg.t :=
  map (aggregate df) (group_keys df).

(** *** Leaderboard *)
Module Growth.
Record t : Type := mk {
  Client_Name : string;
  Profit_Growth_Pct : float64;
  Net_Profit_Total : Q
}.
End Growth.

(** [(growth_abs / abs(first_profit)) * 100 if first_profit != 0 else 0] *)
Definition growth_pct_expr (first_profit last_profit : Q) : float64 :=
  let growth_abs := last_profit - first_profit in
  if negb (Qeq_bool first_profit 0)
  then np_mul (np_truediv growth_abs (Qabs first_profit)) 100
  else Finite 0.

Definition by_growth_desc (g1 g2 : Growth.t) : bool :=
  f64_desc (Growth.Profit_Growth_Pct g1) (Growth.Profit_Growth_Pct g2).

Section Dashboard.
Context {S : SortValues}.

(** [df[df["Client_Name"] == client].sort_values("Month_Index")] *)
Definition client_df (df : DataFrame) (client : string) : DataFrame :=
  sort_values Row by_Month_Index (rows_of client df).

(** The body of the loop that fills [growth_list]. *)
Definition growth_entry (df : DataFrame) (client : string) : result Growth.t :=
  let cdf := client_df df client in
  first_row <~ iloc cdf 0 ;;
  last_row <~ iloc cdf (-1) ;;
  let first_profit := Net_Profit first_row in
  let last_profit := Net_Profit last_row in
  Ok (Growth.mk client (growth_pct_expr first_profit last_profit)
                (col_sum Net_Profit cdf)).

Definition growth_list (df : DataFrame) : result (list Growth.t) :=
  mapR (growth_entry df) (unique (map ClientAgg.Client_Name (client_agg df))).

(** [pd.DataFrame(growth_list).sort_values(..., ascending=False).head(n)];
    the dashboard takes [n = 5].  A frame built from the empty list has no
    column, and sorting it by "Profit_Growth_Pct" raises [KeyError]. *)
Definition growth_leaderboard (df : DataFrame) (top_n : nat)
  : result (list Growth.t) :=
  gl <~ growth_list df ;;
  match gl with
  | [] => Raise KeyError
  | _ :: _ => Ok (head top_n (sort_values Growth.t by_growth_desc gl))
  end.

Definition growth_df (df : DataFrame) : result (list Growth.t) :=
  growth_leaderboard df 5.

(* ---------------------------------------------------------------- *)
(** ** Tab 2: client detail *)

Definition c_data (df : DataFrame) (selected_client : string) : DataFrame :=
  sort_values Row by_Month_Index (rows_of selected_client df).

Definition last_month (df : DataFrame) (selected_client : string) : result Row :=
  iloc (c_data df selected_client) (-1).

(** [roi_mult = last_month['GMV'] / last_month['Total_Investment']] *)
Definition roi_mult (df : DataFrame) (selected_client : string) : result float64 :=
  lm <~ last_month df selected_client ;;
  Ok (np_truediv (GMV lm) (Total_Investment lm)).

End Dashboard.

(** The dictionary [costs], in insertion order. *)
Definition costs (cd : DataFrame) : list (string * Q) :=
  [ ("COGS", col_sum COGS cd);
    ("Platform Comm", col_sum Platform_Comm cd);
    ("Ad Spend", col_sum Ad_Spend cd);
    ("Agency Fee", col_sum Agency_Fee cd);
    ("Net Profit", py_max0 (col_sum Net_Profit cd)) ]%string.

(** [costs[key]] *)
Fixpoint lookup (key : string) (d : list (string * Q)) : option Q :=
  match d with
  | [] => None
  | (k, v) :: d' => if String.eqb k key then Some v else lookup key d'
  end.

(** [list(costs.values())] *)
Definition values (d : list (string * Q)) : list Q := map snd d.

(* ================================================================== *)
(** ** The cost structure in binary64 *)

(** The derivation of a record and the dictionary [costs] once more, on
    the binary64 numbers the script computes with, to evaluate them on
    given figures.  The sum of a column starts from 0 and adds the values
    in order, which for the one-row tables used here is the value itself
    whatever order pandas takes. *)
Module Binary64.
Import PrimFloat.
Set Warnings "-inexact-float".
Local Open Scope float_scope.

Record Row : Type := mkRow {
  GMV : float;
  Ad_Spend : float;
  Agency_Fee : float;
  COGS : float;
  Platform_Comm : float;
  Total_Investment : float;
  Net_Profit : float
}.

Definition derive_record (gmv ad_spend agency_fee cogs_rate comm_rate : float)
  : Row :=
  let total_investment := ad_spend + agency_fee in
  let cogs := gmv * cogs_rate in
  let comm := gmv * comm_rate in
  let net_profit := gmv - cogs - comm - total_investment in
  mkRow gmv ad_spend agency_fee cogs comm total_investment net_profit.

Definition fsum (l : list float) : float := fold_left add l 0.

Definition col_sum (col : Row -> float) (cd : list Row) : float :=
  fsum (map col cd).

Definition py_max0 (x : float) : float := if ltb 0 x then x else 0.

Definition costs (cd : list Row) : list (string * float) :=
  [ ("COGS", col_sum COGS cd);
    ("Platform Comm", col_sum Platform_Comm cd);
    ("Ad Spend", col_sum Ad_Spend cd);
    ("Agency Fee", col_sum Agency_Fee cd);
    ("Net Profit", py_max0 (col_sum Net_Profit cd)) ]%string.







End Binary64.

(* ================================================================== *)
(** ** The properties, as predicates *)

Definition accounting_identities (r : Row) : Prop :=
  Total_Investment r == Ad_Spend r + Agency_Fee r /\
  Net_Profit r == GMV r - COGS r - Platform_Comm r - Total_Investment r /\
  Platform_Comm r == 0.20 * GMV r.

Definition roi_as_specified (r : Row) : Prop :=
  (0 < Total_Investment r ->
   ROI r == Net_Profit r / Total_Investment r * 100) /\
  (Total_Investment r == 0 -> ROI r == 0).

Definition baseline_within (r : Row) : Prop :=
  0 < GMV r /\
  0.6 * GMV r <= Baseline_GMV r /\ Baseline_GMV r <= 0.8 * GMV r /\
  Baseline_GMV r < GMV r.

(** What the loop stores for [client]: the growth of the net profit from
    the row of the smallest month index to the row of the largest, and the
    client's total net profit. *)
Definition growth_entry_for (df : DataFrame) (client : string) (e : Growth.t)
  : Prop :=
  Growth.Client_Name e = client /\
  exists first_row last_row,
    In first_row (rows_of client df) /\ In last_row (rows_of client df) /\
    (forall r, In r (rows_of client df) ->
       (Month_Index first_row <= Month_Index r <= Month_Index last_row)%nat) /\
    Growth.Profit_Growth_Pct e
    = growth_pct_expr (Net_Profit first_row) (Net_Profit last_row) /\
    Growth.Net_Profit_Total e == col_sum Net_Profit (rows_of client df).

Definition finite_pct (e : Growth.t) : Prop :=
  exists q, Growth.Profit_Growth_Pct e = Finite q.

(** The position of a client in a list of entries. *)
Fixpoint position (client : string) (l : list Growth.t) : option nat :=
  match l with
  | [] => None
  | e :: l' =>
      if String.eqb (Growth.Client_Name e) client then Some 0%nat
      else option_map Datatypes.S (position client l')
  end.

(** The position at which a name first occurs in a list. *)
Fixpoint index_of (x : string) (l : list string) : option nat :=
  match l with
  | [] => None
  | y :: l' =>
      if String.eqb y x then Some 0%nat
      else option_map Datatypes.S (index_of x l')
  end.

(** The rank of a client in the order of first appearance in the table,
    the order of [df["Client_Name"].unique()]. *)
Definition first_appearance (client : string) (df : DataFrame) : option nat :=
  index_of client (unique (map Client_Name df)).

(** Ties keep the order of first appearance: of two entries of equal
    growth, the one listed first in the leaderboard belongs to the client
    that appears first in the table. *)
Definition ties_keep_first_appearance (df : DataFrame) (out : list Growth.t)
  : Prop :=
  forall a b i j i' j',
    In a out -> In b out ->
    Growth.Profit_Growth_Pct a = Growth.Profit_Growth_Pct b ->
    position (Growth.Client_Name a) out = Some i ->
    position (Growth.Client_Name b) out = Some j ->
    (i < j)%nat ->
    first_appearance (Growth.Client_Name a) df = Some i' ->
    first_appearance (Growth.Client_Name b) df = Some j' ->
    (i' < j')%nat.


(** The sales and cost figures of a generated row.  The bounds on the
    sales leave a margin around the exact extremes 12825 and 105600, which
    rounding can reach or pass; the others compare a figure with the
    product it was computed as. *)
Definition row_in_ranges (r : Row) : Prop :=
  12800 <= GMV r /\ GMV r <= 105700 /\
  0.08 * GMV r <= Ad_Spend r /\ Ad_Spend r <= 0.15 * GMV r /\
  Agency_Fee r = 2500 /\
  2500 < Total_Investment r /\
  0.35 * GMV r <= COGS r /\ COGS r <= 0.45 * GMV r.

(** A generated row makes money: what is left of the sales after cost of
    goods, commission, advertising and the agency fee is at least 65 in
    exact arithmetic, stated here with a margin. *)
Definition row_profitable (r : Row) : Prop :=
  60 < Net_Profit r /\
  0 < ROI r /\
  ROI r == Net_Profit r / Total_Investment r * 100.

(** The client of a row is one of the given names and its month label is
    the label its month index selects. *)
Definition row_labelled (names : list string) (r : Row) : Prop :=
  In (Client_Name r) names /\
  nth_error months (Month_Index r) = Some (Month r).

(** What is known of every row of a generated table. *)
Definition generated_row_facts (r : Row) : Prop :=
  accounting_identities r /\ row_in_ranges r /\ row_profitable r /\
  baseline_within r /\ row_labelled clients r.

(** The detail view of a client of the generated table. *)
Definition generated_detail {S : SortValues} (df : DataFrame) (client : string)
  : Prop :=
  c_data df client = rows_of client df /\
  List.length (c_data df client) = 12%nat /\
  exists dec q,
    last_month df client = Ok dec /\
    Client_Name dec = client /\ Month dec = "Dec"%string /\
    Month_Index dec = 11%nat /\
    0 < GMV dec - Baseline_GMV dec /\
    roi_mult df client = Ok (Finite q) /\ 1 < q /\ q < 12.5.

(** The growth entry of a client of the generated table. *)
Definition january_to_december (df : DataFrame) (e : Growth.t) : Prop :=
  exists jan dec q,
    In jan df /\ In dec df /\
    Client_Name jan = Growth.Client_Name e /\
    Client_Name dec = Growth.Client_Name e /\
    Month jan = "Jan"%string /\ Month dec = "Dec"%string /\
    Growth.Profit_Growth_Pct e = Finite q /\
    q == (Net_Profit dec - Net_Profit jan) / Net_Profit jan * 100.

(** The cost structure of a client of the generated table. *)
Definition generated_costs {S : SortValues} (df : DataFrame) (client : string)
  : Prop :=
  Forall (fun v => 0 < v) (values (costs (c_data df client))) /\
  lookup "Net Profit" (costs (c_data df client))
  = Some (col_sum Net_Profit (c_data df client)).

(* ================================================================== *)
(** ** Streams and tables the statements are tried on *)

Definition half_samples : nat -> Q := fun _ => 1 # 2.

(** A stream that changes after the first 780 draws. *)
Definition changing_samples : nat -> Q :=
  fun k => if (k <? 780)%nat then 0 else 1 # 2.



(** A table in which every client has the same growth: one row per client
    of the dashboard's list, all with the same figures. *)
Definition tied_table : DataFrame :=
  map (fun client => derived_row client "Jan" 0 50000 35000 5000 2500 0.4 0.20)
      clients.

(** Three clients whose net profit goes from 100 to 150, from 100 to 50
    and from -10 to 10, their rows interleaved and not in month order. *)
Definition growth_example_table : DataFrame :=
  [ derived_row "Sushi Zen" "Dec" 11 6625 4000 0 2500 0.4 0.20;
    derived_row "Burger Kingpin" "Jan" 0 6500 4000 0 2500 0.4 0.20;
    derived_row "Taco Fiesta" "Dec" 11 6275 4000 0 2500 0.4 0.20;
    derived_row "Sushi Zen" "Jan" 0 6500 4000 0 2500 0.4 0.20;
    derived_row "Taco Fiesta" "Jan" 0 6225 4000 0 2500 0.4 0.20;
    derived_row "Burger Kingpin" "Dec" 11 6375 4000 0 2500 0.4 0.20 ].

(** A client that loses money every month, next to one that does not. *)
Definition losing_table : DataFrame :=
  [ derived_row "Taco Fiesta" "Jan" 0 3000 2000 300 2500 0.4 0.20;
    derived_row "Curry House" "Jan" 0 50000 35000 5000 2500 0.4 0.20;
    derived_row "Taco Fiesta" "Feb" 1 3500 2500 350 2500 0.4 0.20 ].

(* ================================================================== *)
(** * Properties *)

(** ** Arithmetic helpers *)

Lemma Qltb_lt (x y : Q) : Qltb x y = true <-> x < y.
Proof.
  unfold Qltb. rewrite negb_true_iff.
  split; intro H.
  - apply Qnot_le_lt. intro Hle. apply Qle_bool_iff in Hle. congruence.
  - destruct (Qle_bool y x) eqn:E; [|reflexivity].
    apply Qle_bool_iff in E. exfalso. apply (Qlt_not_le _ _ H E).
Qed.


Lemma fold_left_Qplus_acc (l : list Q) (a : Q) :
  fold_left Qplus l a == a + fold_left Qplus l 0.
Proof.
  revert a. induction l as [|x l IH]; intro a; simpl.
  - ring.
  - rewrite (IH (a + x)), (IH (0 + x)). ring.
Qed.


Lemma Qsum_cons (x : Q) (l : list Q) : Qsum (x :: l) == x + Qsum l.
Proof.
  unfold Qsum. simpl. rewrite fold_left_Qplus_acc. ring.
Qed.

Lemma Qsum_perm (l1 l2 : list Q) : Permutation l1 l2 -> Qsum l1 == Qsum l2.
Proof.
  induction 1 as [|x l l' _ IH|x y l|l l' l'' _ IH1 _ IH2].
  - reflexivity.
  - rewrite !Qsum_cons, IH. reflexivity.
  - rewrite !Qsum_cons. ring.
  - rewrite IH1. exact IH2.
Qed.

Lemma col_sum_nil (col : Row -> Q) : col_sum col [] = 0.
Proof. reflexivity. Qed.

Lemma col_sum_cons (col : Row -> Q) (r : Row) (df : DataFrame) :
  col_sum col (r :: df) == col r + col_sum col df.
Proof. unfold col_sum. simpl. apply Qsum_cons. Qed.

Lemma col_sum_perm (col : Row -> Q) (d1 d2 : DataFrame) :
  Permutation d1 d2 -> col_sum col d1 == col_sum col d2.
Proof.
  intro H. unfold col_sum. apply Qsum_perm. now apply Permutation_map.
Qed.

(* ------------------------------------------------------------------ *)
(** ** The generator returns the closed-form table *)

Lemma roi_expr_ok (net_profit total_investment : Q) :
  roi_expr net_profit total_investment = Ok (roi_value net_profit total_investment).
Proof.
  unfold roi_expr, roi_value, py_truediv.
  destruct (Qltb 0 total_investment) eqn:E; [|reflexivity].
  apply Qltb_lt in E.
  destruct (Qeq_bool total_investment 0) eqn:E0; [|reflexivity].
  apply Qeq_bool_iff in E0. rewrite E0 in E.
  exfalso. exact (Qlt_irrefl 0 E).
Qed.

Lemma derive_record_ok (client month : string) (i : nat)
    (gmv baseline_gmv ad_spend agency_fee cogs_rate comm_rate : Q) :
  derive_record client month i gmv baseline_gmv ad_spend agency_fee
                cogs_rate comm_rate
  = Ok (derived_row client month i gmv baseline_gmv ad_spend agency_fee
                    cogs_rate comm_rate).
Proof.
  unfold derive_record. rewrite roi_expr_ok. reflexivity.
Qed.

Lemma month_loop_spec (src : nat -> Q) (client : string)
    (base_gmv growth_trend cogs_rate : Q) (ims : list (nat * string)) :
  forall (data : DataFrame) (k : nat),
    for_each ims (month_body client base_gmv growth_trend cogs_rate 0.20 2500)
             data src k
    = Ok (data ++ month_rows src client base_gmv growth_trend cogs_rate k ims,
          (3 * List.length ims + k)%nat).
Proof.
  induction ims as [|[i month] ims IH]; intros data k.
  - simpl. unfold ret. now rewrite app_nil_r.
  - cbn [for_each]. unfold bind at 1.
    unfold month_body at 1. cbv beta iota.
    unfold bind, uniform, lift, ret.
    rewrite derive_record_ok.
    rewrite IH. cbn [month_rows]. unfold month_row.
    rewrite <- app_assoc. cbn [app List.length].
    f_equal. f_equal. lia.
Qed.

Lemma client_body_spec (src : nat -> Q) (month_names : list string)
    (client : string) (data : DataFrame) (k : nat) :
  client_body month_names client data src k
  = Ok (data ++ client_rows src month_names k client,
        (3 + 3 * List.length month_names + k)%nat).
Proof.
  unfold client_body. unfold bind at 1 2 3. unfold uniform at 1 2 3.
  rewrite month_loop_spec. unfold client_rows, enumerate.
  rewrite length_combine, length_seq, Nat.min_id.
  f_equal. f_equal. lia.
Qed.

Lemma client_loop_spec (src : nat -> Q) (names : list string) :
  forall (data : DataFrame) (k : nat),
    for_each names (client_body months) data src k
    = Ok (data ++ table_rows src months k names,
          ((3 + 3 * List.length months) * List.length names + k)%nat).
Proof.
  induction names as [|client names IH]; intros data k.
  - simpl. unfold ret. now rewrite app_nil_r.
  - cbn [for_each]. unfold bind at 1. rewrite client_body_spec.
    rewrite IH. cbn [table_rows]. rewrite <- app_assoc.
    f_equal. f_equal. cbn [List.length]. lia.
Qed.

Lemma generate_for_spec (src : nat -> Q) (names : list string) (k : nat) :
  generate_for names src k
  = Ok (table_rows src months k names, (39 * List.length names + k)%nat).
Proof.
  unfold generate_for. rewrite client_loop_spec. reflexivity.
Qed.

Lemma generate_data_spec (src : nat -> Q) (k : nat) :
  generate_data src k = Ok (table_rows src months k clients, (780 + k)%nat).
Proof.
  unfold generate_data. rewrite generate_for_spec. reflexivity.
Qed.

(* ------------------------------------------------------------------ *)
(** ** Where a generated row comes from *)

Lemma In_enumerate {A} (l : list A) (i : nat) (x : A) :
  In (i, x) (enumerate l) -> (i < List.length l)%nat.
Proof.
  unfold enumerate. intro H. apply in_combine_l in H.
  apply in_seq in H. lia.
Qed.

Lemma In_month_rows (src : nat -> Q) (client : string)
    (base_gmv growth_trend cogs_rate : Q) (ims : list (nat * string)) :
  forall (k : nat) (r : Row),
    In r (month_rows src client base_gmv growth_trend cogs_rate k ims) ->
    exists k' i month,
      In (i, month) ims /\
      r = month_row src client base_gmv growth_trend cogs_rate k' i month.
Proof.
  induction ims as [|[i month] ims IH]; intros k r H; simpl in H.
  - contradiction.
  - destruct H as [H|H].
    + exists k, i, month. split; [now left | now symmetry].
    + destruct (IH _ _ H) as (k' & i' & m' & Hin & Hr).
      exists k', i', m'. split; [now right | exact Hr].
Qed.

Lemma In_table_rows (src : nat -> Q) (month_names names : list string) :
  forall (k : nat) (r : Row),
    In r (table_rows src month_names k names) ->
    exists k0 client,
      In client names /\ In r (client_rows src month_names k0 client).
Proof.
  induction names as [|c names IH]; intros k r H; simpl in H.
  - contradiction.
  - apply in_app_or in H. destruct H as [H|H].
    + exists k, c. split; [now left | exact H].
    + destruct (IH _ _ H) as (k0 & c' & Hin & Hr).
      exists k0, c'. split; [now right | exact Hr].
Qed.

(** Every row of the table is [month_row] at one client, one month below 12
    and some positions of the stream. *)
Lemma generated_row (src : nat -> Q) (names : list string) (k : nat) (r : Row) :
  In r (table_rows src months k names) ->
  exists client k0 k1 i month,
    In client names /\ (i < 12)%nat /\
    r = month_row src client
                  (15000 + (80000 - 15000) * src k0)
                  (0.95 + (1.2 - 0.95) * src (S k0))
                  (0.35 + (0.45 - 0.35) * src (S (S k0)))
                  k1 i month.
Proof.
  intro H. apply In_table_rows in H. destruct H as (k0 & client & Hc & H).
  unfold client_rows in H. apply In_month_rows in H.
  destruct H as (k1 & i & month & Him & Hr).
  apply In_enumerate in Him. change (List.length months) with 12%nat in Him.
  now exists client, k0, k1, i, month.
Qed.

(** Any property of all [month_row]s of months below 12 holds of every row
    the generator returns, and the generator does return. *)
Lemma generate_for_Forall (P : Row -> Prop) (src : nat -> Q) :
  (forall client k0 k1 i month, (i < 12)%nat ->
     P (month_row src client
                  (15000 + (80000 - 15000) * src k0)
                  (0.95 + (1.2 - 0.95) * src (S k0))
                  (0.35 + (0.45 - 0.35) * src (S (S k0)))
                  k1 i month)) ->
  forall names k, exists df k',
    generate_for names src k = Ok (df, k') /\ Forall P df.
Proof.
  intros HP names k. rewrite generate_for_spec.
  eexists; eexists; split; [reflexivity|].
  apply Forall_forall. intros r Hr.
  apply generated_row in Hr.
  destruct Hr as (client & k0 & k1 & i & month & _ & Hi & ->).
  now apply HP.
Qed.

(* ------------------------------------------------------------------ *)
(** ** The accounting identities of a record *)

Lemma month_row_identities (src : nat -> Q) (client : string)
    (b g c : Q) (k i : nat) (month : string) :
  accounting_identities (month_row src client b g c k i month).
Proof.
  unfold accounting_identities, month_row, derived_row. cbn [Total_Investment
    Ad_Spend Agency_Fee Net_Profit GMV COGS Platform_Comm].
  repeat split; try reflexivity. ring.
Qed.

(** C5. Every row that [generate_data] returns satisfies
    total_investment = ad_spend + agency_fee,
    net_profit = gmv - cogs - platform_comm - total_investment and
    platform_comm = 0.20 * gmv; the generator returns for every random
    stream and every starting position. *)
Theorem generated_rows_accounting_identities (src : nat -> Q) (k : nat) :
  exists df k',
    generate_data src k = Ok (df, k') /\ Forall accounting_identities df.
Proof.
  apply generate_for_Forall. intros. apply month_row_identities.
Qed.

(* ------------------------------------------------------------------ *)
(** ** The guarded ROI of a record *)

Lemma derived_row_roi (client month : string) (i : nat)
    (gmv baseline_gmv ad_spend agency_fee cogs_rate comm_rate : Q) :
  roi_as_specified (derived_row client month i gmv baseline_gmv ad_spend
                                agency_fee cogs_rate comm_rate).
Proof.
  unfold roi_as_specified, derived_row.
  cbn [Total_Investment ROI Net_Profit]. unfold roi_value.
  split; intro H.
  - apply Qltb_lt in H. rewrite H. reflexivity.
  - destruct (Qltb 0 (ad_spend + agency_fee)) eqn:E; [|reflexivity].
    apply Qltb_lt in E. rewrite H in E. exfalso. exact (Qlt_irrefl 0 E).
Qed.

(** C7. The per-record derivation never raises, whatever record it is run
    on, and the [roi] it stores is net_profit / total_investment * 100 when
    total_investment > 0 and 0 when total_investment = 0; the same holds of
    every row [generate_data] returns. *)
Theorem roi_guarded_division :
  (forall client month i gmv baseline_gmv ad_spend agency_fee cogs_rate comm_rate,
     exists r,
       derive_record client month i gmv baseline_gmv ad_spend agency_fee
                     cogs_rate comm_rate = Ok r /\
       roi_as_specified r) /\
  (forall src k, exists df k',
     generate_data src k = Ok (df, k') /\ Forall roi_as_specified df).
Proof.
  split.
  - intros. eexists. split; [apply derive_record_ok | apply derived_row_roi].
  - intros src k. apply generate_for_Forall. intros.
    unfold month_row. apply derived_row_roi.
Qed.

(* ------------------------------------------------------------------ *)
(** ** Baseline sales against realised sales *)

Lemma month_fraction_bounds (i : nat) :
  (i < 12)%nat -> 0 <= inject_Z (Z.of_nat i) / 11 <= 1.
Proof.
  intro H.
  assert (H0 : 0 <= inject_Z (Z.of_nat i)).
  { change 0 with (inject_Z 0). rewrite <- Zle_Qle. lia. }
  assert (H1 : inject_Z (Z.of_nat i) <= 11).
  { change 11 with (inject_Z 11). rewrite <- Zle_Qle. lia. }
  split.
  - apply Qle_shift_div_l; [reflexivity | lra].
  - apply Qle_shift_div_r; [reflexivity | lra].
Qed.

Lemma trend_factor_pos (t g : Q) :
  0 <= t <= 1 -> 0.95 <= g -> 0.95 <= 1 + t * (g - 1).
Proof.
  intros [Ht0 Ht1] Hg.
  assert (H : 0 <= (1 - t) * 1 + t * (g - 0.95)) by nra.
  nra.
Qed.

Lemma gmv_pos (base t g noise : Q) :
  15000 <= base -> 0 <= t <= 1 -> 0.95 <= g -> 0.9 <= noise ->
  0 < base * (1 + t * (g - 1)) * noise.
Proof.
  intros Hb Ht Hg Hn.
  pose proof (trend_factor_pos t g Ht Hg) as Htf.
  apply Qmult_lt_0_compat; [apply Qmult_lt_0_compat|]; lra.
Qed.

Lemma month_row_baseline (src : nat -> Q) (client : string)
    (k0 k1 i : nat) (month : string) :
  unit_samples src -> (i < 12)%nat ->
  baseline_within
    (month_row src client
               (15000 + (80000 - 15000) * src k0)
               (0.95 + (1.2 - 0.95) * src (S k0))
               (0.35 + (0.45 - 0.35) * src (S (S k0)))
               k1 i month).
Proof.
  intros Hsrc Hi. unfold baseline_within, month_row, derived_row.
  cbn [GMV Baseline_GMV].
  pose proof (Hsrc k0) as Hb. pose proof (Hsrc (S k0)) as Hg.
  pose proof (Hsrc k1) as Hn. pose proof (Hsrc (S k1)) as Hu.
  pose proof (month_fraction_bounds i Hi) as Ht.
  set (t := inject_Z (Z.of_nat i) / 11) in *.
  assert (Hgmv : 0 < (15000 + (80000 - 15000) * src k0)
                     * (1 + t * (0.95 + (1.2 - 0.95) * src (S k0) - 1))
                     * (0.9 + (1.1 - 0.9) * src k1)).
  { apply gmv_pos; lra. }
  set (gmv := (15000 + (80000 - 15000) * src k0)
              * (1 + t * (0.95 + (1.2 - 0.95) * src (S k0) - 1))
              * (0.9 + (1.1 - 0.9) * src k1)) in *.
  set (u := src (S k1)) in *.
  repeat split; nra.
Qed.

Lemma generated_baseline_within (src : nat -> Q) (k : nat) :
  unit_samples src ->
  exists df k',
    generate_data src k = Ok (df, k') /\ Forall baseline_within df.
Proof.
  intro Hsrc. apply generate_for_Forall. intros.
  now apply month_row_baseline.
Qed.

(** C2 as the code has it. For every stream of unit samples, every row that
    [generate_data] returns has [baseline_gmv] between 60% and 80% of its
    own [gmv], which is positive: [baseline_gmv] is derived from [gmv] and
    is always strictly smaller. *)
Theorem baseline_gmv_below_gmv (src : nat -> Q) (k : nat) :
  unit_samples src ->
  exists df k',
    generate_data src k = Ok (df, k') /\ Forall baseline_within df.
Proof.
  exact (generated_baseline_within src k).
Qed.

Lemma half_samples_unit : unit_samples half_samples.
Proof. intro k. unfold half_samples. split; discriminate. Qed.

Lemma baseline_gmv_below_gmv_witness :
  unit_samples half_samples /\
  exists df k',
    generate_data half_samples 0%nat = Ok (df, k') /\ Forall baseline_within df.
Proof.
  split.
  - exact half_samples_unit.
  - apply (baseline_gmv_below_gmv half_samples 0%nat).
    exact half_samples_unit.
Defined.

(** C2 as the specification words it does not hold: no stream of unit
    samples makes the generator return a row whose [baseline_gmv] reaches
    its [gmv]. *)
Lemma baseline_gmv_never_reaches_gmv :
  ~ exists (src : nat -> Q) (k : nat) (df : DataFrame) (k' : nat) (r : Row),
      unit_samples src /\
      generate_data src k = Ok (df, k') /\
      In r df /\ GMV r <= Baseline_GMV r.
Proof.
  intros (src & k & df & k' & r & Hsrc & Hgen & Hin & Hle).
  destruct (generated_baseline_within src k Hsrc) as (df' & k'' & Hgen' & Hall).
  rewrite Hgen in Hgen'. injection Hgen' as <- <-.
  rewrite Forall_forall in Hall.
  destruct (Hall r Hin) as (_ & _ & _ & Hlt).
  exact (Qlt_not_le _ _ Hlt Hle).
Qed.

(* ------------------------------------------------------------------ *)
(** ** Shape of the generated table *)

Lemma month_rows_length (src : nat -> Q) (client : string) (b g c : Q)
    (ims : list (nat * string)) :
  forall k, List.length (month_rows src client b g c k ims) = List.length ims.
Proof.
  induction ims as [|[i m] ims IH]; intro k; simpl; [reflexivity|].
  now rewrite IH.
Qed.

Lemma month_rows_index (src : nat -> Q) (client : string) (b g c : Q)
    (ims : list (nat * string)) :
  forall k, map Month_Index (month_rows src client b g c k ims) = map fst ims.
Proof.
  induction ims as [|[i m] ims IH]; intro k; simpl; [reflexivity|].
  now rewrite IH.
Qed.

Lemma month_rows_client (src : nat -> Q) (client : string) (b g c : Q)
    (ims : list (nat * string)) :
  forall k, Forall (fun r => Client_Name r = client)
                   (month_rows src client b g c k ims).
Proof.
  induction ims as [|[i m] ims IH]; intro k; simpl; constructor.
  - reflexivity.
  - apply IH.
Qed.

Lemma map_fst_combine_seq {A} (l : list A) :
  forall n, map fst (combine (seq n (List.length l)) l) = seq n (List.length l).
Proof.
  induction l as [|x l IH]; intro n; simpl; [reflexivity|].
  now rewrite IH.
Qed.

Lemma enumerate_length {A} (l : list A) :
  List.length (enumerate l) = List.length l.
Proof.
  unfold enumerate. rewrite length_combine, length_seq. apply Nat.min_id.
Qed.

Lemma client_rows_length (src : nat -> Q) (ms : list string) (k : nat)
    (client : string) :
  List.length (client_rows src ms k client) = List.length ms.
Proof.
  unfold client_rows. now rewrite month_rows_length, enumerate_length.
Qed.

Lemma client_rows_index (src : nat -> Q) (ms : list string) (k : nat)
    (client : string) :
  map Month_Index (client_rows src ms k client) = seq 0 (List.length ms).
Proof.
  unfold client_rows. rewrite month_rows_index. apply map_fst_combine_seq.
Qed.

Lemma rows_of_all (client : string) (df : DataFrame) :
  Forall (fun r => Client_Name r = client) df -> rows_of client df = df.
Proof.
  induction 1 as [|r df Hr _ IH]; simpl; [reflexivity|].
  rewrite Hr, String.eqb_refl. now rewrite IH.
Qed.

Lemma rows_of_none (client other : string) (df : DataFrame) :
  other <> client ->
  Forall (fun r => Client_Name r = other) df -> rows_of client df = [].
Proof.
  intros Hne. induction 1 as [|r df Hr _ IH]; simpl; [reflexivity|].
  rewrite Hr. destruct (String.eqb_spec other client) as [E|_]; [contradiction|].
  exact IH.
Qed.

Lemma rows_of_app (client : string) (d1 d2 : DataFrame) :
  rows_of client (d1 ++ d2) = rows_of client d1 ++ rows_of client d2.
Proof. apply filter_app. Qed.

Lemma table_rows_length (src : nat -> Q) (ms names : list string) :
  forall k,
    List.length (table_rows src ms k names)
    = (List.length names * List.length ms)%nat.
Proof.
  induction names as [|c names IH]; intro k; simpl; [reflexivity|].
  now rewrite length_app, client_rows_length, IH.
Qed.

(** The month indices of the rows of [client], in emission order: one run
    0, 1, ... for each time the name occurs in the list of names. *)
Lemma table_rows_index (src : nat -> Q) (ms names : list string) (client : string) :
  forall k,
    map Month_Index (rows_of client (table_rows src ms k names))
    = flat_map (fun _ => seq 0 (List.length ms))
               (filter (fun n => String.eqb n client) names).
Proof.
  induction names as [|c names IH]; intro k; simpl; [reflexivity|].
  rewrite rows_of_app, map_app, IH.
  pose proof (month_rows_client src c
                (15000 + (80000 - 15000) * src k)
                (0.95 + (1.2 - 0.95) * src (S k))
                (0.35 + (0.45 - 0.35) * src (S (S k)))
                (enumerate ms) (3 + k)) as Hc.
  fold (client_rows src ms k c) in Hc.
  destruct (String.eqb_spec c client) as [E|E].
  - subst c. rewrite rows_of_all by exact Hc.
    simpl. now rewrite client_rows_index.
  - rewrite (rows_of_none client c) by assumption. reflexivity.
Qed.

(** C6. The generator returns a table of (number of clients) x 12 rows, and
    the month indices of a client's rows, in the order they were emitted,
    are 0, 1, ..., 11 once for each occurrence of the client in the list of
    names; for the fixed list of 20 distinct clients that is 240 rows and,
    for each client, exactly the run 0, 1, ..., 11: strictly increasing, no
    gap, no duplicate. *)
Theorem generated_table_shape :
  (forall names src k, exists df k',
     generate_for names src k = Ok (df, k') /\
     List.length df = (List.length names * 12)%nat /\
     forall client,
       map Month_Index (rows_of client df)
       = flat_map (fun _ => seq 0 12)
                  (filter (fun n => String.eqb n client) names)) /\
  (forall src k, exists df k',
     generate_data src k = Ok (df, k') /\
     List.length df = 240%nat /\
     Forall (fun client => map Month_Index (rows_of client df) = seq 0 12)
            clients).
Proof.
  split.
  - intros names src k. rewrite generate_for_spec.
    eexists; eexists; split; [reflexivity|]. split.
    + apply table_rows_length.
    + intro client. apply table_rows_index.
  - intros src k. rewrite generate_data_spec.
    eexists; eexists; split; [reflexivity|]. split.
    + rewrite table_rows_length. reflexivity.
    + apply Forall_forall. intros client Hin.
      rewrite table_rows_index.
      change (List.length months) with 12%nat.
      revert client Hin. apply Forall_forall.
      unfold clients. repeat constructor.
Qed.

(* ------------------------------------------------------------------ *)
(** ** The cached generator *)

(** C9. Whatever the state of the process, a call of the decorated
    generator returns a table, and every later call in that process returns
    the same table and leaves the process as it is, wherever the random
    stream has got to in between. *)
Theorem cached_generator_repeats (src : nat -> Q) (p : Process) :
  exists df p1,
    generate_data_cached src p = Ok (df, p1) /\
    generate_data_cached src p1 = Ok (df, p1) /\
    forall k,
      generate_data_cached src (mkProcess k (cache p1))
      = Ok (df, mkProcess k (cache p1)).
Proof.
  unfold generate_data_cached, cache_data.
  destruct p as [k0 [df0|]]; cbn [cache rng_pos].
  - exists df0, (mkProcess k0 (Some df0)). cbn [cache]. auto.
  - rewrite generate_data_spec.
    eexists; eexists; split; [reflexivity|]. cbn [cache]. auto.
Qed.

(* ------------------------------------------------------------------ *)
(** ** Sorting routines and the contract of [sort_values] *)

Section InsertionSort.
Context {A : Type} (leb : A -> A -> bool).
Hypothesis leb_preorder : total_preorder leb.

Let R (x y : A) : Prop := leb x y = true.

Lemma insert_by_perm (x : A) (l : list A) :
  Permutation (x :: l) (insert_by leb x l).
Proof.
  induction l as [|y l IH]; simpl; [reflexivity|].
  destruct (leb x y); [reflexivity|].
  rewrite perm_swap. now apply perm_skip.
Qed.

Lemma insertion_sort_perm (l : list A) :
  Permutation l (insertion_sort leb l).
Proof.
  induction l as [|x l IH]; simpl; [reflexivity|].
  rewrite <- insert_by_perm. now apply perm_skip.
Qed.

Lemma insert_by_sorted (x : A) (l : list A) :
  StronglySorted R l -> StronglySorted R (insert_by leb x l).
Proof.
  destruct leb_preorder as [Htot Htrans].
  induction 1 as [|y l Hs IH Hy]; simpl.
  - repeat constructor.
  - destruct (leb x y) eqn:E.
    + constructor; [now constructor|].
      constructor; [exact E|].
      eapply Forall_impl; [|exact Hy].
      intros z Hz. exact (Htrans _ _ _ E Hz).
    + constructor; [exact IH|].
      eapply Permutation_Forall; [apply insert_by_perm|].
      constructor; [|exact Hy].
      destruct (Htot x y) as [H|H]; [congruence | exact H].
Qed.

Lemma insertion_sort_sorted (l : list A) :
  StronglySorted R (insertion_sort leb l).
Proof.
  induction l as [|x l IH]; simpl; [constructor|].
  now apply insert_by_sorted.
Qed.

End InsertionSort.

Lemma stable_sort_contract : sort_contract stable_sort.
Proof.
  intros A leb l H. split.
  - apply insertion_sort_perm.
  - now apply insertion_sort_sorted.
Qed.

Lemma unstable_sort_contract : sort_contract unstable_sort.
Proof.
  intros A leb l H. unfold sort_values, unstable_sort. split.
  - rewrite <- insertion_sort_perm. apply Permutation_rev.
  - now apply insertion_sort_sorted.
Qed.

Lemma by_Month_Index_preorder : total_preorder by_Month_Index.
Proof.
  unfold by_Month_Index. split.
  - intros x y.
    destruct (Nat.leb_spec (Month_Index x) (Month_Index y)) as [H|H]; [now left|].
    right. apply Nat.leb_le. lia.
  - intros x y z H1 H2. apply Nat.leb_le in H1, H2. apply Nat.leb_le. lia.
Qed.

Lemma f64_desc_total (x y : float64) : f64_desc x y = true \/ f64_desc y x = true.
Proof.
  destruct x as [a|[|]|], y as [b|[|]|]; simpl; auto.
  destruct (Qlt_le_dec a b) as [H|H].
  - right. apply Qle_bool_iff. now apply Qlt_le_weak.
  - left. now apply Qle_bool_iff.
Qed.

Lemma f64_desc_trans (x y z : float64) :
  f64_desc x y = true -> f64_desc y z = true -> f64_desc x z = true.
Proof.
  destruct x as [a|[|]|], y as [b|[|]|], z as [c|[|]|]; simpl;
    try reflexivity; try discriminate.
  intros H1 H2. apply Qle_bool_iff in H1, H2. apply Qle_bool_iff.
  now apply Qle_trans with b.
Qed.

Lemma by_growth_desc_preorder : total_preorder by_growth_desc.
Proof.
  unfold by_growth_desc. split.
  - intros x y. apply f64_desc_total.
  - intros x y z. apply f64_desc_trans.
Qed.

(* ------------------------------------------------------------------ *)
(** ** Positions of a list *)

Lemma iloc_first {A} (x : A) (l : list A) : iloc (x :: l) 0 = Ok x.
Proof.
  unfold iloc. cbn [List.length]. rewrite Nat2Z.inj_succ.
  change (0 <? 0)%Z with false. cbv iota.
  destruct (Z.leb_spec (Z.succ (Z.of_nat (List.length l))) 0) as [H|H]; [lia|].
  reflexivity.
Qed.

Lemma nth_error_last {A} (l : list A) (d : A) :
  l <> [] -> nth_error l (List.length l - 1) = Some (last l d).
Proof.
  induction l as [|x l IH]; intro H; [contradiction|].
  destruct l as [|y l]; [reflexivity|].
  cbn [List.length]. replace (S (S (List.length l)) - 1)%nat
    with (S (List.length (y :: l) - 1)) by (cbn [List.length]; lia).
  cbn [nth_error]. rewrite IH by discriminate. reflexivity.
Qed.

Lemma iloc_last {A} (l : list A) (d : A) :
  l <> [] -> iloc l (-1) = Ok (last l d).
Proof.
  intro H. unfold iloc.
  assert (Hn : (0 < List.length l)%nat).
  { destruct l; [contradiction | cbn; lia]. }
  change (-1 <? 0)%Z with true. cbv iota.
  destruct (Z.ltb_spec (Z.of_nat (List.length l) + -1) 0) as [H1|H1]; [lia|].
  destruct (Z.leb_spec (Z.of_nat (List.length l))
                       (Z.of_nat (List.length l) + -1)) as [H2|H2]; [lia|].
  cbn [orb].
  replace (Z.to_nat (Z.of_nat (List.length l) + -1))
    with (List.length l - 1)%nat by lia.
  now rewrite (nth_error_last l d H).
Qed.

Lemma last_In {A} (l : list A) (d : A) : l <> [] -> In (last l d) l.
Proof.
  induction l as [|x l IH]; intro H; [contradiction|].
  destruct l as [|y l]; [now left|].
  right. apply IH. discriminate.
Qed.

Lemma StronglySorted_last {A} (R : A -> A -> Prop) (l : list A) (d : A) :
  (forall x, R x x) -> StronglySorted R l -> Forall (fun y => R y (last l d)) l.
Proof.
  intros Hrefl. induction 1 as [|x l Hs IH Hx]; [constructor|].
  destruct l as [|y l].
  - constructor; [apply Hrefl | constructor].
  - change (last (x :: y :: l) d) with (last (y :: l) d).
    constructor.
    + rewrite Forall_forall in Hx. apply Hx. apply last_In. discriminate.
    + exact IH.
Qed.

(* ------------------------------------------------------------------ *)
(** ** Group keys *)

Lemma filter_all {A} (f : A -> bool) (l : list A) :
  (forall x, In x l -> f x = true) -> filter f l = l.
Proof.
  induction l as [|x l IH]; intro H; simpl; [reflexivity|].
  rewrite (H x) by now left.
  rewrite IH; [reflexivity|]. intros y Hy. apply H. now right.
Qed.

Lemma In_unique (x : string) (l : list string) : In x (unique l) <-> In x l.
Proof.
  induction l as [|y l IH]; simpl; [tauto|].
  rewrite filter_In, IH, negb_true_iff.
  destruct (String.eqb_spec y x) as [E|E].
  - subst. split; intros; now left.
  - split; intros [H|H]; auto. tauto.
Qed.

Lemma unique_NoDup (l : list string) : NoDup (unique l).
Proof.
  induction l as [|y l IH]; simpl; constructor.
  - rewrite filter_In, String.eqb_refl. intros [_ H]. discriminate.
  - now apply NoDup_filter.
Qed.

Lemma unique_id (l : list string) : NoDup l -> unique l = l.
Proof.
  induction 1 as [|x l Hx _ IH]; simpl; [reflexivity|].
  rewrite IH. f_equal. apply filter_all.
  intros y Hy. apply negb_true_iff.
  destruct (String.eqb_spec x y) as [E|E]; [subst; contradiction | reflexivity].
Qed.

Lemma sort_keys_perm (l : list string) : Permutation l (sort_keys l).
Proof. apply insertion_sort_perm. Qed.

Lemma group_keys_In (df : DataFrame) (client : string) :
  In client (group_keys df) <-> In client (map Client_Name df).
Proof.
  unfold group_keys. rewrite <- (In_unique client (map Client_Name df)).
  split; intro H.
  - eapply Permutation_in; [symmetry; apply sort_keys_perm | exact H].
  - eapply Permutation_in; [apply sort_keys_perm | exact H].
Qed.

Lemma group_keys_NoDup (df : DataFrame) : NoDup (group_keys df).
Proof.
  unfold group_keys.
  eapply Permutation_NoDup; [apply sort_keys_perm | apply unique_NoDup].
Qed.

Lemma client_agg_names (df : DataFrame) :
  unique (map ClientAgg.Client_Name (client_agg df)) = group_keys df.
Proof.
  unfold client_agg. rewrite map_map. cbn [aggregate ClientAgg.Client_Name].
  rewrite map_id. apply unique_id, group_keys_NoDup.
Qed.

Lemma rows_of_nonempty (df : DataFrame) (client : string) :
  In client (map Client_Name df) -> rows_of client df <> [].
Proof.
  intros H. apply in_map_iff in H. destruct H as (r & Hr & Hin).
  assert (H : In r (rows_of client df)).
  { apply filter_In. split; [exact Hin|]. rewrite Hr. apply String.eqb_refl. }
  intro E. rewrite E in H. contradiction.
Qed.

Lemma rows_of_In (df : DataFrame) (client : string) (r : Row) :
  In r (rows_of client df) <-> In r df /\ Client_Name r = client.
Proof.
  unfold rows_of. rewrite filter_In.
  destruct (String.eqb_spec (Client_Name r) client); intuition congruence.
Qed.

(* ------------------------------------------------------------------ *)
(** ** The growth percentage *)

Lemma growth_pct_nonzero (first_profit last_profit : Q) :
  ~ first_profit == 0 ->
  growth_pct_expr first_profit last_profit
  = Finite ((last_profit - first_profit) / Qabs first_profit * 100).
Proof.
  intro H. unfold growth_pct_expr, np_truediv.
  destruct (Qeq_bool first_profit 0) eqn:E.
  - apply Qeq_bool_iff in E. contradiction.
  - cbn [negb]. destruct (Qeq_bool (Qabs first_profit) 0) eqn:E'.
    + apply Qeq_bool_iff in E'. exfalso. apply H.
      destruct (Qlt_le_dec first_profit 0) as [Hn|Hp].
      * rewrite Qabs_neg in E' by now apply Qlt_le_weak. lra.
      * rewrite Qabs_pos in E' by exact Hp. exact E'.
    + reflexivity.
Qed.

Lemma growth_pct_zero (first_profit last_profit : Q) :
  first_profit == 0 -> growth_pct_expr first_profit last_profit = Finite 0.
Proof.
  intro H. unfold growth_pct_expr.
  apply Qeq_bool_iff in H. now rewrite H.
Qed.

Lemma mapR_Forall2 {A B} (f : A -> result B) (P : A -> B -> Prop) (l : list A) :
  (forall x, In x l -> exists y, f x = Ok y /\ P x y) ->
  exists ys, mapR f l = Ok ys /\ Forall2 P l ys.
Proof.
  induction l as [|x l IH]; intro H; simpl.
  - exists []. split; [reflexivity | constructor].
  - destruct (H x (or_introl eq_refl)) as (y & Hy & Hp).
    destruct IH as (ys & Hys & Hall).
    { intros z Hz. apply H. now right. }
    exists (y :: ys). rewrite Hy. cbn [bindR]. rewrite Hys. cbn [bindR].
    split; [reflexivity | now constructor].
Qed.

Lemma Forall2_In_left {A B} (P : A -> B -> Prop) (l : list A) (ys : list B) (x : A) :
  Forall2 P l ys -> In x l -> exists y, In y ys /\ P x y.
Proof.
  induction 1 as [|a b l ys Hab _ IH]; intro Hin; [contradiction|].
  destruct Hin as [->|Hin].
  - exists b. split; [now left | exact Hab].
  - destruct (IH Hin) as (y & Hy & Hp). exists y. split; [now right | exact Hp].
Qed.

Lemma Forall2_In_right {A B} (P : A -> B -> Prop) (l : list A) (ys : list B) (y : B) :
  Forall2 P l ys -> In y ys -> exists x, In x l /\ P x y.
Proof.
  induction 1 as [|a b l ys Hab _ IH]; intro Hin; [contradiction|].
  destruct Hin as [->|Hin].
  - exists a. split; [now left | exact Hab].
  - destruct (IH Hin) as (x & Hx & Hp). exists x. split; [now right | exact Hp].
Qed.

Lemma Forall2_map_right {A B} (P : A -> B -> Prop) (g : B -> A)
    (l : list A) (ys : list B) :
  (forall x y, P x y -> g y = x) -> Forall2 P l ys -> map g ys = l.
Proof.
  intro H. induction 1 as [|a b l ys Hab _ IH]; simpl; [reflexivity|].
  now rewrite (H _ _ Hab), IH.
Qed.

Section SortedDashboard.
Context {S : SortValues}.
Hypothesis sort_ok : sort_contract S.

Lemma client_df_perm (df : DataFrame) (client : string) :
  Permutation (rows_of client df) (client_df df client).
Proof. apply sort_ok, by_Month_Index_preorder. Qed.

Lemma client_df_sorted (df : DataFrame) (client : string) :
  StronglySorted (fun x y => by_Month_Index x y = true) (client_df df client).
Proof. apply sort_ok, by_Month_Index_preorder. Qed.

(** The first and the last row of a client's sorted rows. *)
Lemma client_df_ends (df : DataFrame) (client : string) :
  In client (map Client_Name df) ->
  exists first_row last_row,
    iloc (client_df df client) 0 = Ok first_row /\
    iloc (client_df df client) (-1) = Ok last_row /\
    In first_row (rows_of client df) /\ In last_row (rows_of client df) /\
    forall r, In r (rows_of client df) ->
      (Month_Index first_row <= Month_Index r <= Month_Index last_row)%nat.
Proof.
  intro Hc.
  pose proof (client_df_perm df client) as Hp.
  pose proof (client_df_sorted df client) as Hs.
  destruct (client_df df client) as [|x l] eqn:E.
  - apply Permutation_sym, Permutation_nil in Hp.
    exfalso. exact (rows_of_nonempty df client Hc Hp).
  - exists x, (last (x :: l) x).
    split; [apply iloc_first|].
    split; [apply iloc_last; discriminate|].
    split; [eapply Permutation_in; [symmetry; exact Hp | now left]|].
    split.
    { eapply Permutation_in; [symmetry; exact Hp|].
      apply last_In. discriminate. }
    intros r Hr. apply (Permutation_in _ Hp) in Hr.
    split.
    + inversion Hs as [|? ? _ Hx]; subst.
      destruct Hr as [<-|Hr]; [lia|].
      rewrite Forall_forall in Hx. specialize (Hx r Hr).
      unfold by_Month_Index in Hx. now apply Nat.leb_le in Hx.
    + pose proof (StronglySorted_last _ (x :: l) x
                    (fun y => Nat.leb_refl (Month_Index y)) Hs) as Hl.
      rewrite Forall_forall in Hl. specialize (Hl r Hr).
      unfold by_Month_Index in Hl. now apply Nat.leb_le in Hl.
Qed.

Lemma growth_entry_spec (df : DataFrame) (client : string) :
  In client (map Client_Name df) ->
  exists e, growth_entry df client = Ok e /\ growth_entry_for df client e.
Proof.
  intro Hc.
  destruct (client_df_ends df client Hc)
    as (first_row & last_row & H0 & H1 & Hf & Hl & Hm).
  unfold growth_entry. rewrite H0. cbn [bindR]. rewrite H1. cbn [bindR].
  eexists. split; [reflexivity|].
  split; [reflexivity|].
  exists first_row, last_row. repeat split; try assumption.
  - apply Hm; assumption.
  - apply Hm; assumption.
  - cbn [Growth.Net_Profit_Total]. symmetry.
    apply col_sum_perm, client_df_perm.
Qed.

Lemma growth_list_spec (df : DataFrame) :
  exists gl,
    growth_list df = Ok gl /\
    Forall2 (fun client e =>
               growth_entry df client = Ok e /\ growth_entry_for df client e)
            (group_keys df) gl.
Proof.
  unfold growth_list. rewrite client_agg_names.
  apply mapR_Forall2. intros client Hin.
  destruct (growth_entry_spec df client) as (e & He & Hfor).
  { now apply group_keys_In. }
  exists e. auto.
Qed.

Lemma growth_list_names (df : DataFrame) (gl : list Growth.t) :
  growth_list df = Ok gl -> map Growth.Client_Name gl = group_keys df.
Proof.
  intro Hgl. destruct (growth_list_spec df) as (gl' & Hgl' & Hall).
  rewrite Hgl in Hgl'. injection Hgl' as <-.
  eapply Forall2_map_right; [|exact Hall].
  intros x y [_ [Hn _]]. exact Hn.
Qed.

(** C4. For every client of the table the loop stores one entry; its growth
    percentage is computed from the first and the last of the client's rows
    sorted by month index, which are rows of the table that belong to this
    client, one of the smallest and one of the largest month index among
    the client's rows whatever the order of the input:
    (last - first) / |first| * 100 when first is not 0, and 0 when it is. *)
Theorem growth_pct_by_month_order (df : DataFrame) (client : string) :
  In client (map Client_Name df) ->
  exists gl e first_row last_row,
    growth_list df = Ok gl /\
    map Growth.Client_Name gl = group_keys df /\
    In e gl /\ Growth.Client_Name e = client /\
    iloc (client_df df client) 0 = Ok first_row /\
    iloc (client_df df client) (-1) = Ok last_row /\
    In first_row df /\ Client_Name first_row = client /\
    In last_row df /\ Client_Name last_row = client /\
    (forall r, In r df -> Client_Name r = client ->
       (Month_Index first_row <= Month_Index r <= Month_Index last_row)%nat) /\
    (~ Net_Profit first_row == 0 ->
     Growth.Profit_Growth_Pct e
     = Finite ((Net_Profit last_row - Net_Profit first_row)
               / Qabs (Net_Profit first_row) * 100)) /\
    (Net_Profit first_row == 0 -> Growth.Profit_Growth_Pct e = Finite 0).
Proof.
  intro Hc.
  destruct (growth_list_spec df) as (gl & Hgl & Hall).
  destruct (client_df_ends df client Hc)
    as (first_row & last_row & H0 & H1 & Hf & Hl & Hm).
  assert (Hk : In client (group_keys df)) by now apply group_keys_In.
  destruct (Forall2_In_left _ _ _ _ Hall Hk) as (e & He & Hee & Hfor).
  destruct Hfor as [Hname _].
  unfold growth_entry in Hee. rewrite H0, H1 in Hee. cbn [bindR] in Hee.
  injection Hee as <-.
  apply rows_of_In in Hf, Hl. destruct Hf as [Hf Hfn], Hl as [Hl Hln].
  eexists gl, _, first_row, last_row.
  split; [exact Hgl|].
  split; [now apply growth_list_names|].
  split; [exact He|].
  repeat (split; [assumption|]).
  split.
  { intros r Hr Hn. apply Hm. apply rows_of_In. now split. }
  cbn [Growth.Profit_Growth_Pct].
  split; intro Hz.
  - now apply growth_pct_nonzero.
  - now apply growth_pct_zero.
Qed.

End SortedDashboard.

(* ------------------------------------------------------------------ *)
(** ** The growth leaderboard *)

Lemma growth_pct_finite (first_profit last_profit : Q) :
  exists q, growth_pct_expr first_profit last_profit = Finite q.
Proof.
  destruct (Qeq_dec first_profit 0) as [H|H].
  - exists 0. now apply growth_pct_zero.
  - eexists. now apply growth_pct_nonzero.
Qed.

Lemma StronglySorted_app_inv {A} (R : A -> A -> Prop) (l1 l2 : list A) :
  StronglySorted R (l1 ++ l2) ->
  StronglySorted R l1 /\ StronglySorted R l2 /\
  forall a b, In a l1 -> In b l2 -> R a b.
Proof.
  induction l1 as [|x l1 IH]; simpl; intro H.
  - repeat split; [constructor | exact H | intros a b []].
  - inversion H as [|? ? Hs Hx]; subst.
    destruct (IH Hs) as (H1 & H2 & H12).
    rewrite Forall_app in Hx. destruct Hx as [Hx1 Hx2].
    repeat split; [now constructor | exact H2 |].
    intros a b [<-|Ha] Hb.
    + rewrite Forall_forall in Hx2. now apply Hx2.
    + now apply H12.
Qed.

Lemma StronglySorted_impl_In {A} (R R' : A -> A -> Prop) (l : list A) :
  (forall a b, In a l -> In b l -> R a b -> R' a b) ->
  StronglySorted R l -> StronglySorted R' l.
Proof.
  intros H Hs. induction Hs as [|x l Hs IH Hx]; constructor.
  - apply IH. intros a b Ha Hb. apply H; now right.
  - rewrite Forall_forall in *. intros y Hy.
    apply H; [now left | now right | now apply Hx].
Qed.

Lemma string_compare_trans (s1 : string) :
  forall s2 s3,
    String.compare s1 s2 <> Gt -> String.compare s2 s3 <> Gt ->
    String.compare s1 s3 <> Gt.
Proof.
  induction s1 as [|c1 s1 IH]; intros [|c2 s2] [|c3 s3]; simpl;
    try congruence.
  unfold Ascii.compare.
  destruct (N.compare_spec (Ascii.N_of_ascii c1) (Ascii.N_of_ascii c2)) as [E12|L12|G12];
    destruct (N.compare_spec (Ascii.N_of_ascii c2) (Ascii.N_of_ascii c3)) as [E23|L23|G23];
    destruct (N.compare_spec (Ascii.N_of_ascii c1) (Ascii.N_of_ascii c3)) as [E13|L13|G13];
    try congruence; try lia; try (intros; discriminate).
  apply IH.
Qed.

Lemma string_leb_preorder : total_preorder String.leb.
Proof.
  split.
  - apply String.leb_total.
  - intros x y z. unfold String.leb. intros H1 H2.
    pose proof (string_compare_trans x y z) as H.
    destruct (String.compare x y); destruct (String.compare y z);
      destruct (String.compare x z); try reflexivity; try discriminate;
      exfalso; apply H; congruence.
Qed.

Lemma leb_neq_ltb (a b : string) :
  String.leb a b = true -> a <> b -> String.ltb a b = true.
Proof.
  unfold String.leb, String.ltb. intros H Hne.
  destruct (String.compare a b) eqn:E; try reflexivity; try discriminate.
  apply String.compare_eq_iff in E. contradiction.
Qed.

Lemma sorted_NoDup_strict (l : list string) :
  StronglySorted (fun a b => String.leb a b = true) l -> NoDup l ->
  StronglySorted (fun a b => String.ltb a b = true) l.
Proof.
  induction 1 as [|x l Hs IH Hx]; intro Hnd; constructor.
  - apply IH. now inversion Hnd.
  - inversion Hnd as [|? ? Hnot _]; subst.
    rewrite Forall_forall in *. intros y Hy.
    apply leb_neq_ltb; [now apply Hx|]. intro E. subst. contradiction.
Qed.

Lemma group_keys_sorted (df : DataFrame) :
  StronglySorted (fun a b => String.ltb a b = true) (group_keys df).
Proof.
  apply sorted_NoDup_strict; [|apply group_keys_NoDup].
  unfold group_keys, sort_keys.
  apply insertion_sort_sorted, string_leb_preorder.
Qed.

Lemma group_keys_nonempty (df : DataFrame) : df <> [] -> group_keys df <> [].
Proof.
  intros Hne E. destruct df as [|r df]; [contradiction|].
  assert (H : In (Client_Name r) (group_keys (r :: df))).
  { apply group_keys_In. now left. }
  rewrite E in H. contradiction.
Qed.

Section Leaderboard.
Context {S : SortValues}.
Hypothesis sort_ok : sort_contract S.

Lemma growth_list_finite (df : DataFrame) (gl : list Growth.t) :
  growth_list df = Ok gl -> Forall finite_pct gl.
Proof.
  intro Hgl. destruct (growth_list_spec sort_ok df) as (gl' & Hgl' & Hall).
  rewrite Hgl in Hgl'. injection Hgl' as <-.
  apply Forall_forall. intros e He.
  destruct (Forall2_In_right _ _ _ _ Hall He) as (c & _ & _ & _ & Hex).
  destruct Hex as (f & l & _ & _ & _ & Hpct & _).
  unfold finite_pct. rewrite Hpct. apply growth_pct_finite.
Qed.

Lemma growth_list_nonempty (df : DataFrame) (gl : list Growth.t) :
  df <> [] -> growth_list df = Ok gl -> gl <> [].
Proof.
  intros Hne Hgl E. subst gl.
  pose proof (growth_list_names sort_ok df [] Hgl) as Hn.
  apply (group_keys_nonempty df Hne). now rewrite <- Hn.
Qed.

Lemma growth_leaderboard_ok (df : DataFrame) (top_n : nat) (gl : list Growth.t) :
  growth_list df = Ok gl -> gl <> [] ->
  growth_leaderboard df top_n
  = Ok (firstn top_n (sort_values Growth.t by_growth_desc gl)).
Proof.
  intros Hgl Hne. unfold growth_leaderboard. rewrite Hgl. cbn [bindR].
  destruct gl; [contradiction | reflexivity].
Qed.

(** C3 as the code has it. For every table with at least one row and every
    [top_n]: the growth list enumerates the clients in the strictly
    ascending order of their names (the keys of the groupby); the
    leaderboard is returned and holds [min top_n (number of clients)]
    entries in descending order of [Profit_Growth_Pct]; and they are the
    highest: together with the entries left out they are the whole growth
    list, and no entry left out ranks above an entry kept.  Nothing is
    said of the order of entries of equal growth. *)
Theorem leaderboard_sorted_top_n (df : DataFrame) (top_n : nat) :
  df <> [] ->
  exists gl out rest,
    growth_list df = Ok gl /\
    map Growth.Client_Name gl = group_keys df /\
    StronglySorted (fun a b => String.ltb a b = true) (group_keys df) /\
    growth_leaderboard df top_n = Ok out /\
    List.length out = Nat.min top_n (List.length gl) /\
    Permutation gl (out ++ rest) /\
    StronglySorted (fun a b => by_growth_desc a b = true) out /\
    forall a b, In a out -> In b rest -> by_growth_desc a b = true.
Proof.
  intro Hne.
  destruct (growth_list_spec sort_ok df) as (gl & Hgl & _).
  pose proof (growth_list_nonempty df gl Hne Hgl) as Hgne.
  destruct (sort_ok Growth.t by_growth_desc gl by_growth_desc_preorder)
    as [Hperm Hsorted].
  pose proof (growth_leaderboard_ok df top_n gl Hgl Hgne) as Hout.
  set (sorted := sort_values Growth.t by_growth_desc gl) in *.
  exists gl, (firstn top_n sorted), (skipn top_n sorted).
  split; [exact Hgl|].
  split; [now apply growth_list_names|].
  split; [apply group_keys_sorted|].
  split; [exact Hout|].
  split.
  { rewrite length_firstn. f_equal. symmetry. now apply Permutation_length. }
  split; [now rewrite firstn_skipn|].
  rewrite <- (firstn_skipn top_n sorted) in Hsorted.
  apply StronglySorted_app_inv in Hsorted. destruct Hsorted as (H1 & _ & H12).
  split; [exact H1 | exact H12].
Qed.

End Leaderboard.

Lemma growth_leaderboard_empty {S : SortValues} (top_n : nat) :
  growth_leaderboard [] top_n = Raise KeyError.
Proof. reflexivity. Qed.

Lemma leaderboard_sorted_top_n_witness :
  sort_contract unstable_sort /\
  growth_example_table <> [] /\
  exists gl out rest,
    growth_list (S := unstable_sort) growth_example_table = Ok gl /\
    map Growth.Client_Name gl = group_keys growth_example_table /\
    StronglySorted (fun a b => String.ltb a b = true)
                   (group_keys growth_example_table) /\
    growth_leaderboard (S := unstable_sort) growth_example_table 2 = Ok out /\
    List.length out = Nat.min 2 (List.length gl) /\
    Permutation gl (out ++ rest) /\
    StronglySorted (fun a b => by_growth_desc a b = true) out /\
    forall a b, In a out -> In b rest -> by_growth_desc a b = true.
Proof.
  split; [exact unstable_sort_contract|].
  split; [discriminate|].
  apply (leaderboard_sorted_top_n unstable_sort_contract growth_example_table 2).
  discriminate.
Defined.

(** C3 as the specification words it does not hold. On the table of twenty
    clients that are listed from "Tasty Wok Express" on and all have the
    same growth, sorting that keeps tied entries where they are returns the
    first five names of the sorted keys: "BBQ Smokehouse" stands before
    "Breakfast Club" on the leaderboard although it appears later in the
    table (rank 11 against rank 9), and the five clients that appear first
    in the table are not the five shown. *)
Lemma leaderboard_ties_follow_sorted_names :
  exists out a b,
    growth_df (S := stable_sort) tied_table = Ok out /\
    map Growth.Client_Name out
    = [ "BBQ Smokehouse"; "Breakfast Club"; "Burger Kingpin";
        "Curry House"; "Dim Sum Daily" ]%string /\
    firstn 5 (unique (map Client_Name tied_table))
    = [ "Tasty Wok Express"; "Burger Kingpin"; "Sushi Zen";
        "Pizza Heaven"; "Taco Fiesta" ]%string /\
    In a out /\ In b out /\
    Growth.Client_Name a = "BBQ Smokehouse"%string /\
    Growth.Client_Name b = "Breakfast Club"%string /\
    Growth.Profit_Growth_Pct a = Growth.Profit_Growth_Pct b /\
    position (Growth.Client_Name a) out = Some 0%nat /\
    position (Growth.Client_Name b) out = Some 1%nat /\
    first_appearance (Growth.Client_Name a) tied_table = Some 11%nat /\
    first_appearance (Growth.Client_Name b) tied_table = Some 9%nat /\
    ~ ties_keep_first_appearance tied_table out.
Proof.
  destruct (growth_df (S := stable_sort) tied_table) as [out|] eqn:Eout;
    [|vm_compute in Eout; discriminate].
  vm_compute in Eout. injection Eout as <-.
  eexists; eexists; eexists.
  split; [reflexivity|]. split; [reflexivity|]. split; [reflexivity|].
  split; [left; reflexivity|].
  split; [right; left; reflexivity|].
  do 7 (split; [reflexivity|]).
  intro H.
  specialize (H _ _ 0%nat 1%nat 11%nat 9%nat
                (or_introl eq_refl) (or_intror (or_introl eq_refl))
                eq_refl eq_refl eq_refl (Nat.lt_0_1) eq_refl eq_refl).
  lia.
Qed.

(* ------------------------------------------------------------------ *)
(** ** Divisions without a guard *)


(* ------------------------------------------------------------------ *)
(** ** Cost structure *)



Lemma lookup_net_profit (cd : DataFrame) :
  lookup "Net Profit" (costs cd) = Some (py_max0 (col_sum Net_Profit cd)).
Proof. reflexivity. Qed.





Section CostStructure.
Context {S : SortValues}.
Hypothesis sort_ok : sort_contract S.

Lemma c_data_perm (df : DataFrame) (client : string) :
  Permutation (rows_of client df) (c_data df client).
Proof. apply sort_ok, by_Month_Index_preorder. Qed.





End CostStructure.

(* ------------------------------------------------------------------ *)
(** ** The statements at concrete inputs *)

Lemma growth_pct_by_month_order_witness :
  sort_contract unstable_sort /\
  In "Sushi Zen"%string (map Client_Name growth_example_table) /\
  exists gl e first_row last_row,
    growth_list (S := unstable_sort) growth_example_table = Ok gl /\
    map Growth.Client_Name gl = group_keys growth_example_table /\
    In e gl /\ Growth.Client_Name e = "Sushi Zen"%string /\
    iloc (client_df (S := unstable_sort) growth_example_table "Sushi Zen") 0
    = Ok first_row /\
    iloc (client_df (S := unstable_sort) growth_example_table "Sushi Zen") (-1)
    = Ok last_row /\
    In first_row growth_example_table /\
    Client_Name first_row = "Sushi Zen"%string /\
    In last_row growth_example_table /\
    Client_Name last_row = "Sushi Zen"%string /\
    (forall r, In r growth_example_table -> Client_Name r = "Sushi Zen"%string ->
       (Month_Index first_row <= Month_Index r <= Month_Index last_row)%nat) /\
    (~ Net_Profit first_row == 0 ->
     Growth.Profit_Growth_Pct e
     = Finite ((Net_Profit last_row - Net_Profit first_row)
               / Qabs (Net_Profit first_row) * 100)) /\
    (Net_Profit first_row == 0 -> Growth.Profit_Growth_Pct e = Finite 0).
Proof.
  split; [exact unstable_sort_contract|].
  split; [left; reflexivity|].
  apply (growth_pct_by_month_order unstable_sort_contract
           growth_example_table "Sushi Zen").
  left; reflexivity.
Defined.





(* ------------------------------------------------------------------ *)
(** ** What the cache is for *)

(** Without the decorator a second call draws again: on this stream the
    first row of the second table has another GMV than that of the first. *)
Lemma undecorated_generator_draws_again :
  exists df1 k1 df2 k2,
    generate_data changing_samples 0%nat = Ok (df1, k1) /\
    generate_data changing_samples k1 = Ok (df2, k2) /\
    map (fun r => Qred (GMV r)) (firstn 1 df1) = [13500] /\
    map (fun r => Qred (GMV r)) (firstn 1 df2) = [47500].
Proof.
  rewrite generate_data_spec.
  eexists; eexists; eexists; eexists.
  split; [reflexivity|].
  rewrite generate_data_spec.
  split; [reflexivity|].
  split; vm_compute; reflexivity.
Qed.

(* ================================================================== *)
(** * Further properties of the generator *)

(** ** Ranges of the generated figures *)

Lemma trend_factor_upper (t g : Q) :
  0 <= t <= 1 -> g <= 1.2 -> 1 + t * (g - 1) <= 1.2.
Proof.
  intros [Ht0 Ht1] Hg.
  assert (0 <= t * (1.2 - g)) by (apply Qmult_le_0_compat; lra). nra.
Qed.

Lemma gmv_bounds (base tf noise : Q) :
  15000 <= base <= 80000 -> 0.95 <= tf <= 1.2 -> 0.9 <= noise <= 1.1 ->
  12825 <= base * tf * noise <= 105600.
Proof.
  intros Hb Ht Hn.
  assert (H1 : 15000 * 0.95 <= base * tf) by (apply Qmult_le_compat_nonneg; lra).
  assert (H2 : base * tf <= 80000 * 1.2) by (apply Qmult_le_compat_nonneg; lra).
  split.
  - assert (H3 : (15000 * 0.95) * 0.9 <= base * tf * noise)
      by (apply Qmult_le_compat_nonneg; lra).
    lra.
  - assert (H3 : base * tf * noise <= (80000 * 1.2) * 1.1)
      by (apply Qmult_le_compat_nonneg; lra).
    lra.
Qed.

Lemma derived_row_ranges (client month : string) (i : nat) (G B a c : Q) :
  12825 <= G <= 105600 -> 0.08 <= a <= 0.15 -> 0.35 <= c <= 0.45 ->
  row_in_ranges (derived_row client month i G B (G * a) 2500 c 0.20).
Proof.
  intros HG Ha Hc. unfold row_in_ranges, derived_row.
  cbn [GMV Ad_Spend Agency_Fee Total_Investment COGS].
  assert (H1 : 0 <= G * (a - 0.08)) by (apply Qmult_le_0_compat; lra).
  assert (H2 : 0 <= G * (0.15 - a)) by (apply Qmult_le_0_compat; lra).
  assert (H3 : 0 <= G * (c - 0.35)) by (apply Qmult_le_0_compat; lra).
  assert (H4 : 0 <= G * (0.45 - c)) by (apply Qmult_le_0_compat; lra).
  repeat split; try reflexivity; nra.
Qed.

Lemma derived_row_profitable (client month : string) (i : nat) (G B a c : Q) :
  12825 <= G <= 105600 -> 0.08 <= a <= 0.15 -> 0.35 <= c <= 0.45 ->
  row_profitable (derived_row client month i G B (G * a) 2500 c 0.20).
Proof.
  intros HG Ha Hc.
  pose proof (derived_row_roi client month i G B (G * a) 2500 c 0.20) as [Hroi _].
  unfold row_profitable. revert Hroi. unfold derived_row.
  cbn [GMV Total_Investment Net_Profit ROI]. intro Hroi.
  assert (H1 : 0 <= G * (a - 0.08)) by (apply Qmult_le_0_compat; lra).
  assert (H2 : 0 <= G * (0.15 - a)) by (apply Qmult_le_0_compat; lra).
  assert (H3 : 0 <= G * (c - 0.35)) by (apply Qmult_le_0_compat; lra).
  assert (H4 : 0 <= G * (0.45 - c)) by (apply Qmult_le_0_compat; lra).
  assert (Hti : 0 < G * a + 2500) by nra.
  assert (Hnet : 65 <= G - G * c - G * 0.20 - (G * a + 2500)) by nra.
  specialize (Hroi Hti).
  split; [lra|]. split; [|exact Hroi].
  rewrite Hroi.
  apply Qmult_lt_0_compat; [|reflexivity].
  apply Qlt_shift_div_l; [exact Hti | lra].
Qed.

Lemma month_row_in_bounds (src : nat -> Q) (client : string)
    (k0 k1 i : nat) (month : string) :
  unit_samples src -> (i < 12)%nat ->
  row_in_ranges
    (month_row src client
               (15000 + (80000 - 15000) * src k0)
               (0.95 + (1.2 - 0.95) * src (S k0))
               (0.35 + (0.45 - 0.35) * src (S (S k0)))
               k1 i month) /\
  row_profitable
    (month_row src client
               (15000 + (80000 - 15000) * src k0)
               (0.95 + (1.2 - 0.95) * src (S k0))
               (0.35 + (0.45 - 0.35) * src (S (S k0)))
               k1 i month).
Proof.
  intros Hsrc Hi. unfold month_row.
  pose proof (Hsrc k0) as Hb. pose proof (Hsrc (S k0)) as Hg.
  pose proof (Hsrc (S (S k0))) as Hc.
  pose proof (Hsrc k1) as Hn. pose proof (Hsrc (S (S k1))) as Ha.
  pose proof (month_fraction_bounds i Hi) as Ht.
  set (t := inject_Z (Z.of_nat i) / 11) in *.
  assert (HG : 12825 <= (15000 + (80000 - 15000) * src k0)
                        * (1 + t * (0.95 + (1.2 - 0.95) * src (S k0) - 1))
                        * (0.9 + (1.1 - 0.9) * src k1) <= 105600).
  { apply gmv_bounds; try lra. split.
    - apply trend_factor_pos; [exact Ht | lra].
    - apply trend_factor_upper; [exact Ht | lra]. }
  split; [apply derived_row_ranges | apply derived_row_profitable];
    try exact HG; lra.
Qed.

(** Every figure of a generated table lies in the range its draws allow:
    sales between 12825 and 105600, advertising between 8% and 15% of the
    sales, cost of goods between 35% and 45% of them, the agency fee 2500
    and the total investment above it. *)
Theorem generated_rows_in_ranges (src : nat -> Q) (k : nat) :
  unit_samples src ->
  exists df k',
    generate_data src k = Ok (df, k') /\ Forall row_in_ranges df.
Proof.
  intro Hsrc. apply generate_for_Forall. intros client k0 k1 i month Hi.
  exact (proj1 (month_row_in_bounds src client k0 k1 i month Hsrc Hi)).
Qed.

Lemma generated_rows_in_ranges_witness :
  unit_samples half_samples /\
  exists df k',
    generate_data half_samples 0%nat = Ok (df, k') /\ Forall row_in_ranges df.
Proof.
  split; [exact half_samples_unit|].
  apply (generated_rows_in_ranges half_samples 0%nat). exact half_samples_unit.
Defined.

Lemma generated_profitable (src : nat -> Q) (k : nat) :
  unit_samples src ->
  exists df k',
    generate_data src k = Ok (df, k') /\ Forall row_profitable df.
Proof.
  intro Hsrc. apply generate_for_Forall. intros client k0 k1 i month Hi.
  exact (proj2 (month_row_in_bounds src client k0 k1 i month Hsrc Hi)).
Qed.

(** Every generated row has a net profit above 65 and a positive ROI, equal
    to net_profit / total_investment * 100: on generated data neither the
    [else 0] of the ROI nor a loss ever occurs. *)
Theorem generated_rows_profitable (src : nat -> Q) (k : nat) :
  unit_samples src ->
  exists df k',
    generate_data src k = Ok (df, k') /\ Forall row_profitable df.
Proof.
  exact (generated_profitable src k).
Qed.

Lemma generated_rows_profitable_witness :
  unit_samples half_samples /\
  exists df k',
    generate_data half_samples 0%nat = Ok (df, k') /\ Forall row_profitable df.
Proof.
  split; [exact half_samples_unit|].
  apply (generated_rows_profitable half_samples 0%nat). exact half_samples_unit.
Defined.

(* ------------------------------------------------------------------ *)
(** ** Labels of the generated rows *)

Lemma In_combine_seq_nth {A} (l : list A) :
  forall (n i : nat) (x : A),
    In (i, x) (combine (seq n (List.length l)) l) ->
    (n <= i)%nat /\ nth_error l (i - n) = Some x.
Proof.
  induction l as [|y l IH]; intros n i x H; simpl in H; [contradiction|].
  destruct H as [H|H].
  - injection H as <- <-. split; [lia|]. now rewrite Nat.sub_diag.
  - apply IH in H. destruct H as [Hle Hn]. split; [lia|].
    replace (i - n)%nat with (S (i - S n)) by lia. exact Hn.
Qed.

Lemma In_enumerate_nth {A} (l : list A) (i : nat) (x : A) :
  In (i, x) (enumerate l) -> nth_error l i = Some x.
Proof.
  intro H. apply In_combine_seq_nth in H. destruct H as [_ H].
  now rewrite Nat.sub_0_r in H.
Qed.

Lemma table_rows_labelled (src : nat -> Q) (names : list string) (k : nat) :
  Forall (row_labelled names) (table_rows src months k names).
Proof.
  apply Forall_forall. intros r Hr.
  apply In_table_rows in Hr. destruct Hr as (k0 & client & Hc & Hr).
  unfold client_rows in Hr. apply In_month_rows in Hr.
  destruct Hr as (k1 & i & month & Him & ->).
  split; [exact Hc|].
  cbn [month_row derived_row Month_Index Month].
  now apply In_enumerate_nth.
Qed.

(** Every generated row belongs to a client of the list and carries the
    month label of its month index: "Jan" with 0, ..., "Dec" with 11. *)
Theorem generated_rows_labelled (names : list string) (src : nat -> Q) (k : nat) :
  exists df k',
    generate_for names src k = Ok (df, k') /\ Forall (row_labelled names) df.
Proof.
  rewrite generate_for_spec. eexists; eexists; split; [reflexivity|].
  apply table_rows_labelled.
Qed.

(* ------------------------------------------------------------------ *)
(** ** The clients of the generated table *)

Lemma month_rows_names (src : nat -> Q) (client : string) (b g c : Q)
    (ims : list (nat * string)) :
  forall k,
    map Client_Name (month_rows src client b g c k ims)
    = repeat client (List.length ims).
Proof.
  induction ims as [|[i m] ims IH]; intro k; simpl; [reflexivity|].
  now rewrite IH.
Qed.

Lemma table_rows_names (src : nat -> Q) (ms names : list string) :
  forall k,
    map Client_Name (table_rows src ms k names)
    = flat_map (fun c => repeat c (List.length ms)) names.
Proof.
  induction names as [|c names IH]; intro k; simpl; [reflexivity|].
  rewrite map_app, IH. unfold client_rows.
  now rewrite month_rows_names, enumerate_length.
Qed.

Lemma filter_filter_same {A} (f : A -> bool) (l : list A) :
  filter f (filter f l) = filter f l.
Proof.
  induction l as [|x l IH]; simpl; [reflexivity|].
  destruct (f x) eqn:E; simpl; [rewrite E, IH|]; auto.
Qed.

Lemma unique_repeat_app (c : string) (n : nat) (rest : list string) :
  filter (fun y => negb (String.eqb c y)) (unique (repeat c n ++ rest))
  = filter (fun y => negb (String.eqb c y)) (unique rest).
Proof.
  induction n as [|n IH]; simpl; [reflexivity|].
  rewrite String.eqb_refl. cbn [negb].
  now rewrite filter_filter_same.
Qed.

Lemma unique_flat_repeat (n : nat) (names : list string) :
  unique (flat_map (fun c => repeat c (S n)) names) = unique names.
Proof.
  induction names as [|c names IH]; [reflexivity|].
  change (unique ((c :: repeat c n)
                  ++ flat_map (fun c => repeat c (S n)) names)
          = unique (c :: names)).
  cbn [app unique].
  rewrite unique_repeat_app, IH. reflexivity.
Qed.

Lemma clients_NoDup : NoDup clients.
Proof.
  unfold clients.
  repeat (constructor; [cbn; intuition discriminate|]). constructor.
Qed.

(** The distinct clients of a generated table, in order of first
    appearance, are the distinct names the generator was given; for the
    dashboard these are its twenty clients in the order of the list (the
    options of the selector), and the rows of [client_agg] are these
    clients in sorted order. *)
Theorem generated_clients :
  (forall names src k, exists df k',
     generate_for names src k = Ok (df, k') /\
     unique (map Client_Name df) = unique names /\
     group_keys df = sort_keys (unique names)) /\
  (forall src k, exists df k',
     generate_data src k = Ok (df, k') /\
     unique (map Client_Name df) = clients /\
     map ClientAgg.Client_Name (client_agg df) = sort_keys clients).
Proof.
  split.
  - intros names src k. rewrite generate_for_spec.
    eexists; eexists; split; [reflexivity|].
    unfold group_keys. rewrite table_rows_names.
    change (List.length months) with 12%nat.
    rewrite unique_flat_repeat. auto.
  - intros src k. rewrite generate_data_spec.
    eexists; eexists; split; [reflexivity|].
    assert (H : unique (map Client_Name (table_rows src months k clients))
                = clients).
    { rewrite table_rows_names. change (List.length months) with 12%nat.
      rewrite unique_flat_repeat. apply unique_id, clients_NoDup. }
    split; [exact H|].
    unfold client_agg. rewrite map_map. cbn [aggregate ClientAgg.Client_Name].
    rewrite map_id. unfold group_keys. now rewrite H.
Qed.

(* ------------------------------------------------------------------ *)
(** ** What the generator reads of the random stream *)

Lemma month_rows_ext (src src' : nat -> Q) (client : string) (b g c : Q)
    (ims : list (nat * string)) :
  forall k,
    (forall j, (k <= j < k + 3 * List.length ims)%nat -> src j = src' j) ->
    month_rows src client b g c k ims = month_rows src' client b g c k ims.
Proof.
  induction ims as [|[i m] ims IH]; intros k H; [reflexivity|].
  cbn [month_rows]. cbn [List.length] in H. f_equal.
  - unfold month_row.
    rewrite (H k), (H (S k)), (H (S (S k))) by lia. reflexivity.
  - apply IH. intros j Hj. apply H. lia.
Qed.

Lemma client_rows_ext (src src' : nat -> Q) (ms : list string) (k : nat)
    (client : string) :
  (forall j, (k <= j < k + (3 + 3 * List.length ms))%nat -> src j = src' j) ->
  client_rows src ms k client = client_rows src' ms k client.
Proof.
  intro H. unfold client_rows.
  rewrite (H k), (H (S k)), (H (S (S k))) by lia.
  apply month_rows_ext. rewrite enumerate_length.
  intros j Hj. apply H. lia.
Qed.

Lemma table_rows_ext (src src' : nat -> Q) (ms names : list string) :
  forall k,
    (forall j, (k <= j < k + (3 + 3 * List.length ms) * List.length names)%nat ->
       src j = src' j) ->
    table_rows src ms k names = table_rows src' ms k names.
Proof.
  induction names as [|c names IH]; intros k H; [reflexivity|].
  cbn [table_rows]. cbn [List.length] in H. f_equal.
  - apply client_rows_ext. intros j Hj. apply H. lia.
  - apply IH. intros j Hj. apply H. lia.
Qed.

(** A run of the generator draws exactly 39 samples per client -- three for
    the client and three for each month -- and its table depends on nothing
    else: two streams that agree on these positions give the same table. *)
Theorem generator_reads_39_samples_per_client
    (names : list string) (src : nat -> Q) (k : nat) :
  exists df,
    generate_for names src k = Ok (df, (39 * List.length names + k)%nat) /\
    forall src',
      (forall j, (k <= j < k + 39 * List.length names)%nat -> src j = src' j) ->
      generate_for names src' k = Ok (df, (39 * List.length names + k)%nat).
Proof.
  exists (table_rows src months k names). split; [apply generate_for_spec|].
  intros src' H. rewrite generate_for_spec. f_equal. f_equal.
  symmetry. apply table_rows_ext. intros j Hj. apply H.
  change (List.length months) with 12%nat in Hj. lia.
Qed.

(* ================================================================== *)
(** * Further properties of the dashboard *)

(** ** Order of the group keys *)

(** [client_agg] has one row for each client of the table and no other,
    in strictly ascending order of the names. *)
Theorem client_agg_one_row_per_client (df : DataFrame) :
  StronglySorted (fun a b => String.ltb a b = true)
                 (map ClientAgg.Client_Name (client_agg df)) /\
  NoDup (map ClientAgg.Client_Name (client_agg df)) /\
  forall client,
    In client (map ClientAgg.Client_Name (client_agg df))
    <-> In client (map Client_Name df).
Proof.
  assert (E : map ClientAgg.Client_Name (client_agg df) = group_keys df).
  { unfold client_agg. rewrite map_map. apply map_id. }
  rewrite E. split; [|split].
  - apply sorted_NoDup_strict; [|apply group_keys_NoDup].
    unfold group_keys, sort_keys.
    apply insertion_sort_sorted, string_leb_preorder.
  - apply group_keys_NoDup.
  - intro client. apply group_keys_In.
Qed.

(* ------------------------------------------------------------------ *)
(** ** Sums and quotients of positive figures *)

Lemma np_truediv_finite (x y : Q) :
  ~ y == 0 -> np_truediv x y = Finite (x / y).
Proof.
  intro Hy. unfold np_truediv.
  destruct (Qeq_bool y 0) eqn:E; [|reflexivity].
  apply Qeq_bool_iff in E. contradiction.
Qed.

Lemma col_sum_pos (col : Row -> Q) (df : DataFrame) :
  df <> [] -> Forall (fun r => 0 < col r) df -> 0 < col_sum col df.
Proof.
  intros Hne H. induction H as [|r df Hr Hall IH]; [contradiction|].
  rewrite col_sum_cons. destruct df as [|r' df].
  - rewrite col_sum_nil. lra.
  - assert (0 < col_sum col (r' :: df)) by (apply IH; discriminate). lra.
Qed.

Lemma length_pos_Q {A} (l : list A) :
  l <> [] -> 0 < inject_Z (Z.of_nat (List.length l)).
Proof.
  intro H. change 0 with (inject_Z 0). rewrite <- Zlt_Qlt.
  destruct l; [contradiction | cbn [List.length]; lia].
Qed.

(* ------------------------------------------------------------------ *)
(** ** The selected client's last month *)

Section ClientDetail.
Context {S : SortValues}.
Hypothesis sort_ok : sort_contract S.

Lemma c_data_missing (df : DataFrame) (client : string) :
  ~ In client (map Client_Name df) -> c_data df client = [].
Proof.
  intro H. pose proof (c_data_perm sort_ok df client) as Hp.
  destruct (rows_of client df) as [|r l] eqn:E.
  - now apply Permutation_nil in Hp.
  - exfalso. apply H.
    assert (Hr : In r (rows_of client df)) by (rewrite E; now left).
    apply rows_of_In in Hr. destruct Hr as [Hr <-]. now apply in_map.
Qed.

(** For a client of the table, [last_month] is a row of that client with
    the largest month index, wherever it stands in the table, and
    [roi_mult] is the quotient of its GMV and its investment; for a name
    that is not in the table both raise [IndexError]. *)
Theorem last_month_of_selected_client (df : DataFrame) (client : string) :
  (In client (map Client_Name df) ->
   exists lm,
     last_month df client = Ok lm /\
     In lm df /\ Client_Name lm = client /\
     (forall r, In r df -> Client_Name r = client ->
        (Month_Index r <= Month_Index lm)%nat) /\
     roi_mult df client = Ok (np_truediv (GMV lm) (Total_Investment lm))) /\
  (~ In client (map Client_Name df) ->
   last_month df client = Raise IndexError /\
   roi_mult df client = Raise IndexError).
Proof.
  split; intro Hc.
  - destruct (client_df_ends sort_ok df client Hc)
      as (first_row & lm & _ & Hlast & _ & Hin & Hmax).
    exists lm. unfold roi_mult, last_month, c_data.
    unfold client_df in Hlast. rewrite Hlast. cbn [bindR].
    apply rows_of_In in Hin. destruct Hin as [Hin Hname].
    repeat split; try assumption.
    intros r Hr Hn. apply Hmax. apply rows_of_In. now split.
  - unfold roi_mult, last_month. rewrite (c_data_missing df client Hc).
    split; reflexivity.
Qed.

End ClientDetail.

Lemma last_month_of_selected_client_witness :
  sort_contract stable_sort /\
  (exists lm,
     last_month (S := stable_sort) losing_table "Taco Fiesta" = Ok lm /\
     Month lm = "Feb"%string) /\
  last_month (S := stable_sort) losing_table "Sushi Zen" = Raise IndexError.
Proof.
  split; [exact stable_sort_contract|].
  pose proof (last_month_of_selected_client stable_sort_contract
                losing_table "Taco Fiesta") as [Hin _].
  pose proof (last_month_of_selected_client stable_sort_contract
                losing_table "Sushi Zen") as [_ Hout].
  split.
  - destruct (Hin (or_introl eq_refl)) as (lm & Hlm & _).
    exists lm. split; [exact Hlm|].
    vm_compute in Hlm. injection Hlm as <-. reflexivity.
  - apply Hout. cbn. intuition discriminate.
Defined.

(* ------------------------------------------------------------------ *)
(** ** When the sorting routine does not matter *)

(** Two sorted arrangements of the same elements are the same list when no
    two distinct elements are each allowed before the other. *)
Lemma sorted_perm_unique {A} (R : A -> A -> Prop) (l1 : list A) :
  forall l2,
    StronglySorted R l1 -> StronglySorted R l2 -> Permutation l1 l2 ->
    (forall x y, In x l1 -> In y l1 -> R x y -> R y x -> x = y) ->
    l1 = l2.
Proof.
  induction l1 as [|x t1 IH]; intros l2 H1 H2 Hp Hanti.
  - apply Permutation_nil in Hp. now subst.
  - destruct l2 as [|y t2].
    { apply Permutation_sym, Permutation_nil in Hp. discriminate. }
    inversion H1 as [|? ? Hs1 Hx]; subst.
    inversion H2 as [|? ? Hs2 Hy]; subst.
    rewrite Forall_forall in Hx, Hy.
    assert (Hyin : In y (x :: t1)).
    { eapply Permutation_in; [symmetry; exact Hp | now left]. }
    assert (Hxin : In x (y :: t2)).
    { eapply Permutation_in; [exact Hp | now left]. }
    assert (E : x = y).
    { destruct Hyin as [E|Hyin]; [exact E|].
      destruct Hxin as [E|Hxin]; [now symmetry|].
      apply Hanti; [now left | now right | now apply Hx | now apply Hy]. }
    subst y. f_equal.
    apply IH; try assumption.
    + now apply Permutation_cons_inv in Hp.
    + intros a b Ha Hb. apply Hanti; now right.
Qed.

Section SortIrrelevant.
Context {S : SortValues}.
Hypothesis sort_ok : sort_contract S.

Lemma sort_values_unique {A} (leb : A -> A -> bool) (l : list A) :
  total_preorder leb ->
  (forall x y, In x l -> In y l -> leb x y = true -> leb y x = true -> x = y) ->
  sort_values A leb l = insertion_sort leb l.
Proof.
  intros Hpre Hanti.
  destruct (sort_ok A leb l Hpre) as [Hp Hs].
  symmetry. apply (sorted_perm_unique (fun x y => leb x y = true)).
  - now apply insertion_sort_sorted.
  - exact Hs.
  - rewrite <- Hp. symmetry. apply insertion_sort_perm.
  - intros x y Hx Hy. apply Hanti.
    + eapply Permutation_in; [symmetry; apply insertion_sort_perm | exact Hx].
    + eapply Permutation_in; [symmetry; apply insertion_sort_perm | exact Hy].
Qed.

(** On a table with at least one row, when no two clients have the same
    growth, the leaderboard does not depend on the sorting routine behind
    [sort_values]: it is the first [top_n] entries of the growth list
    sorted by insertion. *)
Theorem leaderboard_determined_without_ties
    (df : DataFrame) (top_n : nat) (gl : list Growth.t) :
  df <> [] ->
  growth_list df = Ok gl ->
  (forall a b, In a gl -> In b gl ->
     by_growth_desc a b = true -> by_growth_desc b a = true -> a = b) ->
  growth_leaderboard df top_n
  = Ok (firstn top_n (insertion_sort by_growth_desc gl)).
Proof.
  intros Hne Hgl Hanti.
  rewrite (growth_leaderboard_ok df top_n gl Hgl
             (growth_list_nonempty sort_ok df gl Hne Hgl)).
  rewrite sort_values_unique; auto using by_growth_desc_preorder.
Qed.

Lemma leaderboard_shape (df : DataFrame) (top_n : nat) :
  df <> [] ->
  exists out,
    growth_leaderboard df top_n = Ok out /\
    List.length out = Nat.min top_n (List.length (group_keys df)) /\
    NoDup (map Growth.Client_Name out) /\
    Forall (fun e => In (Growth.Client_Name e) (map Client_Name df)) out /\
    Forall finite_pct out.
Proof.
  intro Hne.
  destruct (growth_list_spec sort_ok df) as (gl & Hgl & Hall).
  pose proof (growth_list_names sort_ok df gl Hgl) as Hnames.
  pose proof (growth_list_finite sort_ok df gl Hgl) as Hfin.
  pose proof (growth_leaderboard_ok df top_n gl Hgl
                (growth_list_nonempty sort_ok df gl Hne Hgl)) as Hout.
  destruct (sort_ok Growth.t by_growth_desc gl by_growth_desc_preorder)
    as [Hperm _].
  set (sorted := sort_values Growth.t by_growth_desc gl) in *.
  exists (firstn top_n sorted).
  split; [exact Hout|].
  assert (Hsn : Permutation (group_keys df) (map Growth.Client_Name sorted)).
  { rewrite <- Hnames. now apply Permutation_map. }
  split.
  { rewrite length_firstn. f_equal.
    rewrite (Permutation_length Hsn). symmetry. apply length_map. }
  assert (Hnd : NoDup (map Growth.Client_Name sorted)).
  { eapply Permutation_NoDup; [exact Hsn | apply group_keys_NoDup]. }
  rewrite <- (firstn_skipn top_n sorted) in Hnd, Hsn.
  rewrite map_app in Hnd, Hsn.
  split; [now apply NoDup_app_remove_r in Hnd|].
  split.
  - apply Forall_forall. intros e He.
    apply group_keys_In.
    eapply Permutation_in; [symmetry; exact Hsn|].
    apply in_or_app. left. now apply in_map.
  - apply Forall_forall. intros e He.
    assert (Hs : Forall finite_pct sorted)
      by (eapply Permutation_Forall; eassumption).
    rewrite Forall_forall in Hs. apply Hs.
    rewrite <- (firstn_skipn top_n sorted). apply in_or_app. now left.
Qed.

(** The shape of the leaderboard: on the table without rows the script
    raises [KeyError]; on every other table the leaderboard is returned, it
    has [min top_n (number of clients)] entries, and they belong to
    pairwise distinct clients of the table. *)
Theorem leaderboard_entries (df : DataFrame) (top_n : nat) :
  growth_leaderboard [] top_n = Raise KeyError /\
  (df <> [] ->
   exists out,
     growth_leaderboard df top_n = Ok out /\
     List.length out = Nat.min top_n (List.length (group_keys df)) /\
     NoDup (map Growth.Client_Name out) /\
     Forall (fun e => In (Growth.Client_Name e) (map Client_Name df)) out).
Proof.
  split; [reflexivity|].
  intro Hne.
  destruct (leaderboard_shape df top_n Hne) as (out & H1 & H2 & H3 & H4 & _).
  exists out. auto.
Qed.

Lemma client_df_of_sorted_rows (df : DataFrame) (client : string) :
  StronglySorted (fun r1 r2 => (Month_Index r1 < Month_Index r2)%nat)
                 (rows_of client df) ->
  client_df df client = rows_of client df /\
  c_data df client = rows_of client df.
Proof.
  intro Hs.
  assert (E : client_df df client = rows_of client df).
  { symmetry.
    apply (sorted_perm_unique (fun x y => by_Month_Index x y = true)).
    - eapply StronglySorted_impl_In; [|exact Hs].
      intros a b _ _ Hab. cbv beta in Hab.
      unfold by_Month_Index. apply Nat.leb_le. lia.
    - now apply client_df_sorted.
    - now apply client_df_perm.
    - intros x y Hx Hy Hxy Hyx.
      unfold by_Month_Index in Hxy, Hyx. apply Nat.leb_le in Hxy, Hyx.
      clear - Hs Hx Hy Hxy Hyx.
      induction Hs as [|r l Hs' IH Hr]; [contradiction|].
      rewrite Forall_forall in Hr.
      destruct Hx as [<-|Hx], Hy as [<-|Hy]; auto.
      + specialize (Hr _ Hy). cbv beta in Hr. lia.
      + specialize (Hr _ Hx). cbv beta in Hr. lia. }
  split; [exact E | exact E].
Qed.


End SortIrrelevant.

Lemma leaderboard_determined_without_ties_witness :
  sort_contract unstable_sort /\
  growth_example_table <> [] /\
  exists gl,
    growth_list (S := unstable_sort) growth_example_table = Ok gl /\
    growth_leaderboard (S := unstable_sort) growth_example_table 2
    = Ok (firstn 2 (insertion_sort by_growth_desc gl)) /\
    map Growth.Client_Name (firstn 2 (insertion_sort by_growth_desc gl))
    = [ "Taco Fiesta"; "Sushi Zen" ]%string.
Proof.
  split; [exact unstable_sort_contract|]. split; [discriminate|].
  destruct (growth_list (S := unstable_sort) growth_example_table)
    as [gl|] eqn:E; [|vm_compute in E; discriminate].
  exists gl. split; [reflexivity|].
  split.
  - apply (leaderboard_determined_without_ties unstable_sort_contract
             growth_example_table 2 gl); [discriminate | exact E |].
    vm_compute in E. injection E as <-.
    intros a b [<-|[<-|[<-|[]]]] [<-|[<-|[<-|[]]]] H1 H2;
      try reflexivity; vm_compute in H1, H2; discriminate.
  - vm_compute in E. injection E as <-. vm_compute. reflexivity.
Defined.

Lemma leaderboard_entries_witness :
  sort_contract unstable_sort /\
  tied_table <> [] /\
  exists out,
    growth_leaderboard (S := unstable_sort) tied_table 5 = Ok out /\
    List.length out = Nat.min 5 (List.length (group_keys tied_table)) /\
    NoDup (map Growth.Client_Name out) /\
    Forall (fun e => In (Growth.Client_Name e) (map Client_Name tied_table)) out.
Proof.
  split; [exact unstable_sort_contract|]. split; [discriminate|].
  apply (leaderboard_entries unstable_sort_contract tied_table 5).
  discriminate.
Defined.


(* ================================================================== *)
(** * The dashboard on the generated table *)

Lemma table_rows_facts (src : nat -> Q) (k : nat) :
  unit_samples src ->
  Forall generated_row_facts (table_rows src months k clients).
Proof.
  intro Hsrc. apply Forall_forall. intros r Hr.
  pose proof (table_rows_labelled src clients k) as Hlab.
  rewrite Forall_forall in Hlab. specialize (Hlab r Hr).
  apply generated_row in Hr.
  destruct Hr as (client & k0 & k1 & i & month & _ & Hi & ->).
  destruct (month_row_in_bounds src client k0 k1 i month Hsrc Hi) as [H1 H2].
  unfold generated_row_facts.
  split; [apply month_row_identities|].
  split; [exact H1|]. split; [exact H2|].
  split; [now apply month_row_baseline | exact Hlab].
Qed.

Lemma Forall_rows_of (P : Row -> Prop) (client : string) (df : DataFrame) :
  Forall P df -> Forall P (rows_of client df).
Proof.
  intro H. apply Forall_forall. intros r Hr. apply rows_of_In in Hr.
  rewrite Forall_forall in H. now apply H.
Qed.

Lemma clients_filter_single :
  Forall (fun c => filter (fun n => String.eqb n c) clients = [c]) clients.
Proof. unfold clients. repeat constructor. Qed.

Lemma generated_client_indices (src : nat -> Q) (k : nat) (client : string) :
  In client clients ->
  map Month_Index (rows_of client (table_rows src months k clients))
  = seq 0 12.
Proof.
  intro Hc. rewrite table_rows_index.
  pose proof clients_filter_single as H. rewrite Forall_forall in H.
  rewrite (H client Hc). reflexivity.
Qed.

Lemma map_seq_sorted {A} (f : A -> nat) (l : list A) :
  forall a n,
    map f l = seq a n ->
    StronglySorted (fun x y => (f x < f y)%nat) l.
Proof.
  induction l as [|x l IH]; intros a n H; [constructor|].
  destruct n as [|n]; [discriminate|].
  cbn in H. injection H as Hx Hl.
  constructor; [now apply (IH (S a) n)|].
  apply Forall_forall. intros y Hy.
  assert (Hin : In (f y) (seq (S a) n)) by (rewrite <- Hl; now apply in_map).
  apply in_seq in Hin. lia.
Qed.

Lemma map_last {A B} (f : A -> B) (l : list A) (d : A) :
  last (map f l) (f d) = f (last l d).
Proof.
  induction l as [|x l IH]; [reflexivity|].
  destruct l as [|y l]; [reflexivity|].
  change (last (map f (x :: y :: l)) (f d)) with (last (map f (y :: l)) (f d)).
  exact IH.
Qed.

(** The rows of a client of the generated table: they are sorted by
    distinct month indices, the first is January's, the last December's. *)
Lemma generated_client_ends (src : nat -> Q) (k : nat) (client : string) :
  In client clients ->
  let rows := rows_of client (table_rows src months k clients) in
  StronglySorted (fun r1 r2 => (Month_Index r1 < Month_Index r2)%nat) rows /\
  exists jan dec,
    iloc rows 0 = Ok jan /\ iloc rows (-1) = Ok dec /\
    In jan rows /\ In dec rows /\
    Month_Index jan = 0%nat /\ Month_Index dec = 11%nat.
Proof.
  intro Hc. cbv zeta.
  pose proof (generated_client_indices src k client Hc) as Hidx.
  set (rows := rows_of client (table_rows src months k clients)) in *.
  split; [now apply (map_seq_sorted Month_Index rows 0 12)|].
  destruct rows as [|x t] eqn:E; [discriminate|].
  exists x, (last (x :: t) x).
  split; [apply iloc_first|].
  split; [apply iloc_last; discriminate|].
  split; [now left|].
  split; [apply last_In; discriminate|].
  split.
  - cbn in Hidx. now injection Hidx.
  - rewrite <- map_last, Hidx. reflexivity.
Qed.

Lemma month_label_of_index (r : Row) :
  row_labelled clients r ->
  (Month_Index r = 0%nat -> Month r = "Jan"%string) /\
  (Month_Index r = 11%nat -> Month r = "Dec"%string).
Proof.
  intros [_ H]. split; intro E; rewrite E in H; cbn in H; congruence.
Qed.

Lemma quotient_pos (a b : Q) : 0 < a -> 0 < b -> 0 < a / b * 100.
Proof.
  intros Ha Hb. apply Qmult_lt_0_compat; [|reflexivity].
  apply Qlt_shift_div_l; [exact Hb | lra].
Qed.

Lemma facts_pos (r : Row) :
  generated_row_facts r ->
  0 < GMV r /\ 0 < Net_Profit r /\ 0 < Total_Investment r /\ 0 < ROI r /\
  0 < COGS r /\ 0 < Platform_Comm r /\ 0 < Ad_Spend r /\ 0 < Agency_Fee r.
Proof.
  intros ((_ & _ & Hpc) & (Hg & _ & Ha & _ & Hfee & Hti & Hc & _)
          & (Hn & Hroi & _) & _).
  rewrite Hfee.
  assert (H0 : (0 : Q) < 2500) by reflexivity.
  split; [lra|]. split; [lra|]. split; [lra|]. split; [exact Hroi|].
  split; [lra|]. split; [lra|]. split; [lra|]. exact H0.
Qed.

(** The overview of the table the generator returns. *)
Lemma generated_overview_holds (src : nat -> Q) (k : nat) :
  unit_samples src ->
  0 < total_gmv (table_rows src months k clients) /\
  0 < total_profit (table_rows src months k clients) /\
  0 < total_invest (table_rows src months k clients) /\
  (exists q, weighted_roi (table_rows src months k clients) = Finite q /\ 0 < q) /\
  Forall (fun a => 0 < ClientAgg.Total_Investment a /\
                   0 < ClientAgg.Net_Profit a /\ 0 < ClientAgg.ROI a /\
                   exists o, ClientAgg.Overall_ROI a = Finite o /\ 0 < o)
         (client_agg (table_rows src months k clients)).
Proof.
  intro Hsrc.
  pose proof (table_rows_facts src k Hsrc) as Hf.
  set (df := table_rows src months k clients) in *.
  assert (Hne : df <> []).
  { intro E. pose proof (table_rows_length src months clients k) as Hl.
    fold df in Hl. rewrite E in Hl. discriminate. }
  assert (Hpos : forall (col : Row -> Q) (l : DataFrame),
            (forall r, generated_row_facts r -> 0 < col r) ->
            l <> [] -> Forall generated_row_facts l -> 0 < col_sum col l).
  { intros col l Hcol Hl Hall. apply col_sum_pos; [exact Hl|].
    eapply Forall_impl; [|exact Hall]. exact Hcol. }
  assert (Hgmv : forall r, generated_row_facts r -> 0 < GMV r)
    by (intros r Hr; apply (facts_pos r Hr)).
  assert (Hnet : forall r, generated_row_facts r -> 0 < Net_Profit r)
    by (intros r Hr; apply (facts_pos r Hr)).
  assert (Hinv : forall r, generated_row_facts r -> 0 < Total_Investment r)
    by (intros r Hr; apply (facts_pos r Hr)).
  assert (Hroi : forall r, generated_row_facts r -> 0 < ROI r)
    by (intros r Hr; apply (facts_pos r Hr)).
  assert (Hti : 0 < total_invest df) by (apply Hpos; assumption).
  assert (Htp : 0 < total_profit df) by (apply Hpos; assumption).
  split; [apply Hpos; assumption|].
  split; [exact Htp|]. split; [exact Hti|].
  split.
  { unfold weighted_roi. rewrite np_truediv_finite by lra. cbn [np_mul].
    eexists. split; [reflexivity|]. now apply quotient_pos. }
  apply Forall_forall. intros a Ha.
  unfold client_agg in Ha. apply in_map_iff in Ha.
  destruct Ha as (c & <- & Hc).
  apply group_keys_In in Hc.
  pose proof (rows_of_nonempty df c Hc) as Hg.
  pose proof (Forall_rows_of _ c df Hf) as Hgf.
  cbn [aggregate ClientAgg.Total_Investment ClientAgg.Net_Profit ClientAgg.ROI
       ClientAgg.Overall_ROI].
  assert (Hgi : 0 < col_sum Total_Investment (rows_of c df))
    by (apply Hpos; assumption).
  assert (Hgn : 0 < col_sum Net_Profit (rows_of c df))
    by (apply Hpos; assumption).
  split; [exact Hgi|]. split; [exact Hgn|]. split.
  - unfold col_mean. apply Qlt_shift_div_l.
    + now apply length_pos_Q.
    + assert (0 < col_sum ROI (rows_of c df)) by (apply Hpos; assumption). lra.
  - rewrite np_truediv_finite by lra. cbn [np_mul].
    eexists. split; [reflexivity|]. now apply quotient_pos.
Qed.

(** On a generated table the figures of the overview are positive numbers:
    the total GMV and the total net profit, the weighted ROI, and for each
    row of [client_agg] the net profit, the mean monthly ROI and the
    overall ROI; no division meets a zero denominator. *)
Theorem generated_overview_is_positive (src : nat -> Q) (k : nat) :
  unit_samples src ->
  exists df k' q,
    generate_data src k = Ok (df, k') /\
    0 < total_gmv df /\ 0 < total_profit df /\
    weighted_roi df = Finite q /\ 0 < q /\
    Forall (fun a => 0 < ClientAgg.Net_Profit a /\ 0 < ClientAgg.ROI a /\
                     exists o, ClientAgg.Overall_ROI a = Finite o /\ 0 < o)
           (client_agg df).
Proof.
  intro Hsrc.
  destruct (generated_overview_holds src k Hsrc)
    as (Hg & Hp & _ & (q & Hq & Hq0) & Hall).
  exists (table_rows src months k clients), (780 + k)%nat, q.
  split; [apply generate_data_spec|].
  repeat (split; [assumption|]).
  eapply Forall_impl; [|exact Hall].
  intros a (_ & H1 & H2 & H3). auto.
Qed.

Lemma generated_overview_is_positive_witness :
  unit_samples half_samples /\
  exists df k' q,
    generate_data half_samples 0%nat = Ok (df, k') /\
    0 < total_gmv df /\ 0 < total_profit df /\
    weighted_roi df = Finite q /\ 0 < q /\
    Forall (fun a => 0 < ClientAgg.Net_Profit a /\ 0 < ClientAgg.ROI a /\
                     exists o, ClientAgg.Overall_ROI a = Finite o /\ 0 < o)
           (client_agg df).
Proof.
  split; [exact half_samples_unit|].
  exact (generated_overview_is_positive half_samples 0%nat half_samples_unit).
Defined.

Lemma Ok_inj {A} (a b : A) : Ok a = Ok b -> a = b.
Proof.
  intro H.
  exact (f_equal (fun r => match r with Ok x => x | Raise _ => a end) H).
Qed.

Section GeneratedDashboard.
Context {S : SortValues}.
Hypothesis sort_ok : sort_contract S.
Variable src : nat -> Q.
Hypothesis src_ok : unit_samples src.
Variable k : nat.

Let df := table_rows src months k clients.

Lemma generated_c_data (client : string) :
  In client clients ->
  c_data df client = rows_of client df /\
  client_df df client = rows_of client df.
Proof.
  intro Hc.
  destruct (generated_client_ends src k client Hc) as [Hs _].
  destruct (client_df_of_sorted_rows sort_ok df client Hs) as [H1 H2].
  now split.
Qed.

Lemma generated_detail_holds (client : string) :
  In client clients -> generated_detail df client.
Proof.
  intro Hc. unfold generated_detail.
  destruct (generated_c_data client Hc) as [Hcd _].
  destruct (generated_client_ends src k client Hc)
    as (_ & jan & dec & _ & Hlast & _ & Hdec & _ & Hidx).
  fold df in Hlast, Hdec.
  pose proof (table_rows_facts src k src_ok) as Hf. fold df in Hf.
  pose proof (Forall_rows_of _ client df Hf) as Hg.
  rewrite Forall_forall in Hg.
  destruct (Hg dec Hdec) as (Hacc & Hrng & _ & Hbase & Hlab).
  split; [exact Hcd|].
  split.
  { rewrite Hcd. rewrite <- (length_map Month_Index).
    unfold df. now rewrite generated_client_indices. }
  unfold roi_mult, last_month. rewrite Hcd, Hlast. cbn [bindR].
  destruct Hacc as (Hti & _ & _).
  destruct Hrng as (Hg1 & Hg2 & Ha1 & Ha2 & Hfee & Hinv & _).
  destruct Hbase as (_ & _ & _ & Hb).
  rewrite Hfee in Hti.
  exists dec. eexists.
  split; [reflexivity|].
  split; [apply rows_of_In in Hdec; apply Hdec|].
  split; [now apply (month_label_of_index dec Hlab)|].
  split; [exact Hidx|].
  split; [lra|].
  rewrite np_truediv_finite by lra.
  split; [reflexivity|]. split.
  - apply Qlt_shift_div_l; lra.
  - apply Qlt_shift_div_r; lra.
Qed.

Lemma generated_growth_entry (client : string) (e : Growth.t) :
  In client clients -> growth_entry df client = Ok e ->
  january_to_december df e.
Proof.
  intros Hc He.
  destruct (generated_c_data client Hc) as [_ Hcd].
  destruct (generated_client_ends src k client Hc)
    as (_ & jan & dec & Hfirst & Hlast & Hjan & Hdec & Hi0 & Hi11).
  fold df in Hfirst, Hlast, Hjan, Hdec.
  pose proof (table_rows_facts src k src_ok) as Hf. fold df in Hf.
  pose proof (Forall_rows_of _ client df Hf) as Hg.
  rewrite Forall_forall in Hg.
  destruct (Hg jan Hjan) as (_ & _ & Hpj & _ & Hlj).
  destruct (Hg dec Hdec) as (_ & _ & _ & _ & Hld).
  destruct Hpj as (Hpos & _).
  unfold growth_entry in He. rewrite Hcd, Hfirst, Hlast in He.
  cbn [bindR] in He. apply Ok_inj in He. subst e.
  apply rows_of_In in Hjan, Hdec.
  destruct Hjan as [Hjan Hnj], Hdec as [Hdec Hnd].
  exists jan, dec. eexists.
  cbn [Growth.Client_Name Growth.Profit_Growth_Pct].
  repeat (split; [assumption|]).
  split; [now apply (month_label_of_index jan Hlj)|].
  split; [now apply (month_label_of_index dec Hld)|].
  split.
  - apply growth_pct_nonzero. lra.
  - rewrite Qabs_pos by lra. reflexivity.
Qed.

Lemma generated_costs_hold (client : string) :
  In client clients -> generated_costs df client.
Proof.
  intro Hc. unfold generated_costs.
  destruct (generated_c_data client Hc) as [Hcd _]. rewrite Hcd.
  pose proof (table_rows_facts src k src_ok) as Hf. fold df in Hf.
  pose proof (Forall_rows_of _ client df Hf) as Hg.
  assert (Hne : rows_of client df <> []).
  { intro E.
    pose proof (generated_client_indices src k client Hc) as Hi.
    fold df in Hi. rewrite E in Hi. discriminate. }
  assert (Hpos : forall col : Row -> Q,
            (forall r, generated_row_facts r -> 0 < col r) ->
            0 < col_sum col (rows_of client df)).
  { intros col Hcol. apply col_sum_pos; [exact Hne|].
    eapply Forall_impl; [|exact Hg]. exact Hcol. }
  assert (Hnet : 0 < col_sum Net_Profit (rows_of client df))
    by (apply Hpos; intros r Hr; apply (facts_pos r Hr)).
  assert (Hmax : py_max0 (col_sum Net_Profit (rows_of client df))
                 = col_sum Net_Profit (rows_of client df)).
  { unfold py_max0. apply Qltb_lt in Hnet. now rewrite Hnet. }
  split.
  - unfold values, costs. cbn [map snd]. rewrite Hmax.
    repeat constructor; try exact Hnet; apply Hpos;
      intros r Hr; apply (facts_pos r Hr).
  - rewrite lookup_net_profit. now rewrite Hmax.
Qed.



(** The detail view of every client of the generated table: [c_data] is
    the client's twelve rows in the order they were generated, whatever the
    sorting routine; the last month is the client's December row; its GMV
    exceeds its baseline; and the ROI multiple is a number between 1 and
    12.5 -- every dollar invested brought more than a dollar of sales. *)
Theorem generated_client_detail :
  exists d k',
    generate_data src k = Ok (d, k') /\
    forall client, In client clients -> generated_detail d client.
Proof.
  exists df, (780 + k)%nat. split; [apply generate_data_spec|].
  exact generated_detail_holds.
Qed.

(** On the generated table the growth list has one entry for each of the
    twenty clients, in sorted order of the names, and the growth of a
    client is the relative change of the net profit from its January row to
    its December row, (dec - jan) / jan * 100: January's profit is positive,
    so neither the guard nor the absolute value changes anything. *)
Theorem generated_growth_january_to_december :
  exists d k' gl,
    generate_data src k = Ok (d, k') /\
    growth_list d = Ok gl /\
    map Growth.Client_Name gl = sort_keys clients /\
    Forall (january_to_december d) gl.
Proof.
  destruct (growth_list_spec sort_ok df) as (gl & Hgl & Hall).
  assert (Hkeys : group_keys df = sort_keys clients).
  { unfold group_keys, df. rewrite table_rows_names.
    change (List.length months) with 12%nat.
    rewrite unique_flat_repeat. now rewrite (unique_id _ clients_NoDup). }
  exists df, (780 + k)%nat, gl.
  split; [apply generate_data_spec|]. split; [exact Hgl|].
  split; [rewrite <- Hkeys; now apply growth_list_names|].
  apply Forall_forall. intros e He.
  destruct (Forall2_In_right _ _ _ _ Hall He) as (c & Hc & Hentry & _).
  apply (generated_growth_entry c e); [|exact Hentry].
  rewrite Hkeys in Hc.
  eapply Permutation_in; [symmetry; apply sort_keys_perm | exact Hc].
Qed.

(** On the generated table the clamp of the cost structure never acts: for
    every client the five values of [costs] are positive and the
    "Net Profit" entry is the summed net profit itself. *)
Theorem generated_costs_are_positive :
  exists d k',
    generate_data src k = Ok (d, k') /\
    forall client, In client clients -> generated_costs d client.
Proof.
  exists df, (780 + k)%nat. split; [apply generate_data_spec|].
  exact generated_costs_hold.
Qed.

(** On the generated table the leaderboard of the dashboard shows exactly
    five entries, of five different clients of the list, each with a
    growth percentage that is a number. *)
Theorem generated_leaderboard_has_five_clients :
  exists d k' out,
    generate_data src k = Ok (d, k') /\
    growth_df d = Ok out /\
    List.length out = 5%nat /\
    NoDup (map Growth.Client_Name out) /\
    Forall (fun e => In (Growth.Client_Name e) clients) out /\
    Forall finite_pct out.
Proof.
  assert (Hne : df <> []).
  { intro E. pose proof (table_rows_length src months clients k) as Hl.
    fold df in Hl. rewrite E in Hl. discriminate. }
  destruct (leaderboard_shape sort_ok df 5 Hne)
    as (out & Hout & Hlen & Hnd & Hin & Hfin).
  assert (Hu : unique (map Client_Name df) = clients).
  { unfold df. rewrite table_rows_names.
    change (List.length months) with 12%nat.
    rewrite unique_flat_repeat. apply unique_id, clients_NoDup. }
  exists df, (780 + k)%nat, out.
  split; [apply generate_data_spec|]. split; [exact Hout|].
  split.
  { rewrite Hlen. unfold group_keys. rewrite Hu.
    rewrite <- (Permutation_length (sort_keys_perm clients)). reflexivity. }
  split; [exact Hnd|]. split; [|exact Hfin].
  eapply Forall_impl; [|exact Hin].
  intros e He. cbv beta in He.
  rewrite <- Hu. now apply In_unique.
Qed.

End GeneratedDashboard.


Lemma generated_client_detail_witness :
  sort_contract stable_sort /\ unit_samples half_samples /\
  exists d k',
    generate_data half_samples 0%nat = Ok (d, k') /\
    forall client, In client clients ->
      generated_detail (S := stable_sort) d client.
Proof.
  split; [exact stable_sort_contract|]. split; [exact half_samples_unit|].
  exact (generated_client_detail stable_sort_contract half_samples
           half_samples_unit 0%nat).
Defined.

Lemma generated_growth_january_to_december_witness :
  sort_contract stable_sort /\ unit_samples half_samples /\
  exists d k' gl,
    generate_data half_samples 0%nat = Ok (d, k') /\
    growth_list (S := stable_sort) d = Ok gl /\
    map Growth.Client_Name gl = sort_keys clients /\
    Forall (january_to_december d) gl.
Proof.
  split; [exact stable_sort_contract|]. split; [exact half_samples_unit|].
  exact (generated_growth_january_to_december stable_sort_contract
           half_samples half_samples_unit 0%nat).
Defined.

Lemma generated_costs_are_positive_witness :
  sort_contract stable_sort /\ unit_samples half_samples /\
  exists d k',
    generate_data half_samples 0%nat = Ok (d, k') /\
    forall client, In client clients ->
      generated_costs (S := stable_sort) d client.
Proof.
  split; [exact stable_sort_contract|]. split; [exact half_samples_unit|].
  exact (generated_costs_are_positive stable_sort_contract half_samples
           half_samples_unit 0%nat).
Defined.

Lemma generated_leaderboard_has_five_clients_witness :
  sort_contract unstable_sort /\
  exists d k' out,
    generate_data half_samples 0%nat = Ok (d, k') /\
    growth_df (S := unstable_sort) d = Ok out /\
    List.length out = 5%nat /\
    NoDup (map Growth.Client_Name out) /\
    Forall (fun e => In (Growth.Client_Name e) clients) out /\
    Forall finite_pct out.
Proof.
  split; [exact unstable_sort_contract|].
  exact (generated_leaderboard_has_five_clients unstable_sort_contract
           half_samples 0%nat).
Defined.
